(** * tidyup: Gmail triage scripts

    A shallow embedding of [scripts/create_filter.py] and
    [scripts/delete_messages.py].

    Python [str] values are modelled as [string] (a sequence of bytes, the
    UTF-8 encoding of the text).  The three characters the scripts look
    for, [<], [>] and line feed, and the letters [y], [n], [Y], [N] are
    single bytes that never occur inside a multi-byte UTF-8 sequence, so
    searching on bytes agrees with searching on code points. *)

From Stdlib Require Import String Ascii List Bool Arith Lia.
From stdpp Require Import base option list strings gmap.
Import ListNotations.
Local Open Scope string_scope.
Local Open Scope list_scope.
#[local] Arguments String.append !s1 s2 : simpl nomatch.

(** ** Python string primitives used by the scripts *)

Module Py.

(** [str.lower] on one byte: [A]..[Z] move to [a]..[z], every other
    byte is left alone.  No character outside ASCII lowercases to [y]
    or [n], which is all the scripts test for. *)
Definition lower_ascii (c : ascii) : ascii :=
  let n := nat_of_ascii c in
  if Nat.leb 65 n && Nat.leb n 90 then ascii_of_nat (n + 32) else c.

Fixpoint lower (s : string) : string :=
  match s with
  | EmptyString => EmptyString
  | String c r => String (lower_ascii c) (lower r)
  end.

(** [needle in hay] on [str]: [needle] occurs as a contiguous run. *)
Fixpoint contains (needle hay : string) : bool :=
  String.prefix needle hay ||
  match hay with
  | EmptyString => false
  | String _ hay' => contains needle hay'
  end.

(** [sep.join(parts)]. *)
Fixpoint join (sep : string) (parts : list string) : string :=
  match parts with
  | [] => EmptyString
  | [p] => p
  | p :: ps => p +:+ sep +:+ join sep ps
  end.

Definition LT : ascii := "<"%char.
Definition GT : ascii := ">"%char.
Definition LF : ascii := "010"%char.

(** The tail [(.*?)>] of the pattern, tried right after a [<]: the lazy
    group takes as few characters as possible, and [.] refuses a line
    feed (the pattern is compiled without [re.DOTALL]). *)
Fixpoint lazy_group (s : string) : option string :=
  match s with
  | EmptyString => None
  | String c r =>
      if Ascii.eqb c GT then Some EmptyString
      else if Ascii.eqb c LF then None
      else String c <$> lazy_group r
  end.

(** [re.search(r"<(.*?)>", text)] followed by [.group(1)]: the start
    positions are tried from the left, and the first one where the whole
    pattern matches wins.  [None] is Python's [None] (no match). *)
Fixpoint re_search_brackets (text : string) : option string :=
  match text with
  | EmptyString => None
  | String c r =>
      if Ascii.eqb c LT then
        match lazy_group r with
        | Some g => Some g
        | None => re_search_brackets r
        end
      else re_search_brackets r
  end.

End Py.

(** ** Data exchanged with the mail provider

    Records follow the schema of the Gmail REST resources.  A message
    reference is kept as the dictionary the client library hands over, since
    the scripts index it with [mess["id"]] and probe it with
    [.get("nextPageToken")].  A filter's [from] criterion is optional in the
    schema (a filter may match on subject, recipient or a query instead). *)

Record Header := { h_name : string; h_value : string }.

Record MessageData := { md_id : string; md_headers : list Header }.

Abbreviation MsgRef := (gmap string string).

Record ListResponse := {
  lr_messages : option (list MsgRef);
  lr_nextPageToken : option string
}.

Record Criteria := { c_from : option string }.

Record Action := { addLabelIds : list string; removeLabelIds : list string }.

Record Filter := { f_id : option string; criteria : Criteria; action : Action }.

(** The calls of the provider's API.  The scripts only ever build the
    first, second, fourth and fifth; [MessagesDelete] and
    [MessagesBatchDelete] are the provider's deletion requests. *)
Inductive Request :=
| MessagesList (maxResults : option nat) (pageToken : option string)
| MessagesGet (id : string)
| MessagesDelete (id : string)
| MessagesBatchDelete (ids : list string)
| FiltersList
| FiltersCreate (body : Filter).

Inductive Reply :=
| RList (r : ListResponse)
| RMessage (m : MessageData)
| RFilters (fs : option (list Filter))
| RFilter (f : Filter)
| REmpty.

(** ** The mail provider

    The provider is outside the repository; its state is what the
    scripts can observe or change through the API.  [faults] schedules
    provider-side failures: one entry is consumed per request, and [true]
    makes that request fail with an HTTP error. *)
Record Server := {
  first_page : ListResponse;
  more_pages : gmap string ListResponse;
  store : gmap string MessageData;
  filters : option (list Filter);
  next_filter_id : string;
  faults : list bool
}.

Definition set_faults (fs : list bool) (s : Server) : Server :=
  {| first_page := first_page s; more_pages := more_pages s; store := store s;
     filters := filters s; next_filter_id := next_filter_id s; faults := fs |}.

Definition set_filters (f : option (list Filter)) (s : Server) : Server :=
  {| first_page := first_page s; more_pages := more_pages s; store := store s;
     filters := f; next_filter_id := next_filter_id s; faults := faults s |}.

Definition drop_ref (id : string) (r : ListResponse) : ListResponse :=
  {| lr_messages :=
       filter (fun m : MsgRef => m !! "id" ≠ Some id) <$> lr_messages r;
     lr_nextPageToken := lr_nextPageToken r |}.

Definition delete_message (id : string) (s : Server) : Server :=
  {| first_page := drop_ref id (first_page s);
     more_pages := drop_ref id <$> more_pages s;
     store := delete id (store s);
     filters := filters s; next_filter_id := next_filter_id s;
     faults := faults s |}.

(** The mailbox: the stored messages and their listing. *)
Definition mailbox (s : Server) :
  ListResponse * gmap string ListResponse * gmap string MessageData :=
  (first_page s, more_pages s, store s).

(** What the provider does with a request that is not hit by a fault.
    [None] is an HTTP error (unknown page token, unknown message). *)
Definition answer (s : Server) (q : Request) : Server * option Reply :=
  match q with
  | MessagesList _ None => (s, Some (RList (first_page s)))
  | MessagesList _ (Some t) => (s, RList <$> more_pages s !! t)
  | MessagesGet id => (s, RMessage <$> store s !! id)
  | MessagesDelete id =>
      match store s !! id with
      | Some _ => (delete_message id s, Some REmpty)
      | None => (s, None)
      end
  | MessagesBatchDelete ids =>
      (foldr delete_message s ids, Some REmpty)
  | FiltersList => (s, Some (RFilters (filters s)))
  | FiltersCreate body =>
      let f := {| f_id := Some (next_filter_id s);
                  criteria := criteria body; action := action body |} in
      (set_filters (Some (default [] (filters s) ++ [f])) s, Some (RFilter f))
  end.

Definition serve (s : Server) (q : Request) : Server * option Reply :=
  match faults s with
  | true :: fs => (set_faults fs s, None)
  | _ :: fs => answer (set_faults fs s) q
  | [] => answer s q
  end.

(** ** The running script: state, exceptions, divergence *)

Inductive Exn :=
| HttpError | TypeError | KeyError | IndexError | EOFError | FileNotFoundError.

(** [Running]: the loop budget ran out with the script still looping. *)
Inductive Outcome (A : Type) :=
| Done (a : A)
| Raised (e : Exn)
| Running.
Arguments Done {A} a.
Arguments Raised {A} e.
Arguments Running {A}.

(** [hash_order] is the order in which this Python process iterates over
    a set of strings; the language leaves it unspecified. *)
Record World := {
  server : Server;
  stdin : list string;
  stdout : list string;
  token_json : bool;
  sent : list Request;
  hash_order : gset string -> list string
}.

Definition M (A : Type) : Type := World -> Outcome A * World.

Definition ret {A} (a : A) : M A := fun w => (Done a, w).

Definition bind {A B} (m : M A) (k : A -> M B) : M B :=
  fun w =>
    match m w with
    | (Done a, w') => k a w'
    | (Raised e, w') => (Raised e, w')
    | (Running, w') => (Running, w')
    end.

Definition raise {A} (e : Exn) : M A := fun w => (Raised e, w).

Definition out_of_budget {A} : M A := fun w => (Running, w).

Notation "x <- m ; k" := (bind m (fun x => k))
  (at level 20, m at level 100, k at level 200, only parsing).

(** [try: body except HttpError as error: handler]. *)
Definition try_except_http {A} (body : M A) (handler : M A) : M A :=
  fun w =>
    match body w with
    | (Raised HttpError, w') => handler w'
    | r => r
    end.

Definition with_server (s : Server) (q : Request) (w : World) : World :=
  {| server := s; stdin := stdin w; stdout := stdout w;
     token_json := token_json w; sent := sent w ++ [q];
     hash_order := hash_order w |}.

(** [....execute()]: the request goes out, the reply or an [HttpError]
    comes back. *)
Definition execute (q : Request) : M Reply :=
  fun w =>
    let '(s, r) := serve (server w) q in
    match r with
    | Some reply => (Done reply, with_server s q w)
    | None => (Raised HttpError, with_server s q w)
    end.

Definition print (line : string) : M unit :=
  fun w =>
    (Done tt,
     {| server := server w; stdin := stdin w; stdout := stdout w ++ [line];
        token_json := token_json w; sent := sent w;
        hash_order := hash_order w |}).

(** [for x in s] over a set: the elements in this process's order. *)
Definition iterate (s : gset string) : M (list string) :=
  fun w => (Done (hash_order w s), w).

(** [d[key]] on a dictionary. *)
Definition getitem (d : MsgRef) (key : string) : M string :=
  match d !! key with
  | Some v => ret v
  | None => raise KeyError
  end.

(** [os.remove(f"{cwd}/token.json")]. *)
Definition remove_token : M unit :=
  fun w =>
    if token_json w then
      (Done tt,
       {| server := server w; stdin := stdin w; stdout := stdout w;
          token_json := false; sent := sent w; hash_order := hash_order w |})
    else (Raised FileNotFoundError, w).

Definition with_terminal (i o : list string) (w : World) : World :=
  {| server := server w; stdin := i; stdout := o;
     token_json := token_json w; sent := sent w;
     hash_order := hash_order w |}.

(** Typed views of the replies the scripts read. *)
Definition messages_list (maxResults : option nat) (pageToken : option string)
  : M ListResponse :=
  r <- execute (MessagesList maxResults pageToken) ;
  match r with RList l => ret l | _ => raise TypeError end.

Definition messages_get (id : string) : M MessageData :=
  r <- execute (MessagesGet id) ;
  match r with RMessage m => ret m | _ => raise TypeError end.

Definition filters_list : M (option (list Filter)) :=
  r <- execute FiltersList ;
  match r with RFilters fs => ret fs | _ => raise TypeError end.

Definition filters_create (body : Filter) : M Filter :=
  r <- execute (FiltersCreate body) ;
  match r with RFilter f => ret f | _ => raise TypeError end.

(** ** Functions the two scripts share

    [get_unique_senders], [mark_senders] and [extract_emails] have the
    same text in both files and are embedded once. *)

Module Common.

(** Body of [for header in message_data["payload"]["headers"]]. *)
Definition note_sender (unique_senders : gset string) (header : Header)
  : gset string :=
  if decide (h_name header = "From") then
    if decide (h_value header ∈ unique_senders) then unique_senders
    else {[ h_value header ]} ∪ unique_senders
  else unique_senders.

Fixpoint senders_loop (messages_list : list MsgRef)
  (unique_senders : gset string) : M (gset string) :=
  match messages_list with
  | [] => ret unique_senders
  | mess :: rest =>
      id <- getitem mess "id" ;
      message_data <- messages_get id ;
      senders_loop rest (foldl note_sender unique_senders (md_headers message_data))
  end.

(** [messages_list] is what [.get("messages")] gave: [None] when the key
    is absent, and iterating over [None] is a [TypeError]. *)
Definition get_unique_senders (messages_list : option (list MsgRef))
  : M (gset string) :=
  match messages_list with
  | None => raise TypeError
  | Some l => senders_loop l ∅
  end.

Definition prompt (item : string) : string :=
  "Do you want to mark '" +:+ item +:+ "'? (y/n): ".

Definition invalid_input : string :=
  "Invalid input. Please enter 'y' or 'n'.".

(** [mark in ("y", "n")]. *)
Definition valid_mark (mark : string) : bool :=
  String.eqb mark "y" || String.eqb mark "n".

(** The [while True] loop that asks about one [item]: [lines] is what is
    left of the terminal input, [out] what has been written so far.  With
    no line left, [input] raises [EOFError]. *)
Fixpoint ask (item : string) (lines out : list string)
  : Outcome string * list string * list string :=
  match lines with
  | [] => (Raised EOFError, [], out ++ [prompt item])
  | line :: rest =>
      let mark := Py.lower line in
      if valid_mark mark then (Done mark, rest, out ++ [prompt item])
      else ask item rest (out ++ [prompt item; invalid_input])
  end.

Definition read_mark (item : string) : M string :=
  fun w =>
    let '(r, i, o) := ask item (stdin w) (stdout w) in
    (r, with_terminal i o w).

Fixpoint mark_loop (senders_list marked_senders : list string)
  : M (list string) :=
  match senders_list with
  | [] => ret marked_senders
  | item :: rest =>
      mark <- read_mark item ;
      mark_loop rest
        (if String.eqb mark "y" then marked_senders ++ [item]
         else marked_senders)
  end.

Definition mark_senders (senders_list : list string) : M (list string) :=
  mark_loop senders_list [].

Fixpoint emails_loop (senders emails : list string) : list string :=
  match senders with
  | [] => emails
  | text :: rest =>
      match Py.re_search_brackets text with
      | Some email => emails_loop rest (emails ++ [email])
      | None => emails_loop rest emails
      end
  end.

Definition extract_emails (senders : list string) : list string :=
  emails_loop senders [].

End Common.

(** ** scripts/create_filter.py *)

Module CreateFilter.
Import Common.

(** The inner [for filter in filters_list["filter"]] with its [else]:
    [Done true] is the [break], [Done false] the exhausted loop, and a
    filter without a [from] criterion makes the subscript raise. *)
Fixpoint covered (email : string) (fs : list Filter) : Outcome bool :=
  match fs with
  | [] => Done false
  | f :: rest =>
      match c_from (criteria f) with
      | None => Raised KeyError
      | Some from => if Py.contains email from then Done true else covered email rest
      end
  end.

Fixpoint unfiltered_loop (fs : list Filter) (email_list unfiltered_emails : list string)
  : Outcome (list string) :=
  match email_list with
  | [] => Done unfiltered_emails
  | email :: rest =>
      match covered email fs with
      | Done true => unfiltered_loop fs rest unfiltered_emails
      | Done false => unfiltered_loop fs rest (unfiltered_emails ++ [email])
      | Raised e => Raised e
      | Running => Running
      end
  end.

Definition no_filters_found : string :=
  "No filters found, all emails considered unfiltered.".

(** The list [unfiltered_emails] as it stands at the [return]. *)
Definition unfiltered_list (email_list : list string) : M (list string) :=
  filters_list <- filters_list ;
  match filters_list with
  | Some fs =>
      match unfiltered_loop fs email_list [] with
      | Done l => ret l
      | Raised e => raise e
      | Running => out_of_budget
      end
  | None => _ <- print no_filters_found ; ret ([] ++ email_list)
  end.

Definition identify_unfiltered_emails (email_list : list string) : M string :=
  unfiltered_emails <- unfiltered_list email_list ;
  ret (Py.join " OR " unfiltered_emails).

(** [messages[-1].get("nextPageToken", None)]. *)
Definition last_page_token (messages : option (list MsgRef))
  : M (option string) :=
  match messages with
  | None => raise TypeError
  | Some l =>
      match last l with
      | Some m => ret (m !! "nextPageToken")
      | None => raise IndexError
      end
  end.

(** Truth value of [page_token]: [None] and the empty string are false. *)
Definition truthy (page_token : option string) : bool :=
  match page_token with
  | Some t => negb (String.eqb t "")
  | None => false
  end.

(** One pass through the body of [while True], up to the test. *)
Definition page_step (messages : option (list MsgRef))
  : M (string * option string) :=
  unique <- get_unique_senders messages ;
  order <- iterate unique ;
  senders <- mark_senders order ;
  let emails := extract_emails senders in
  unfiltered_emails <- identify_unfiltered_emails emails ;
  page_token <- last_page_token messages ;
  ret (unfiltered_emails, page_token).

(** The [while True] loop.  [unfiltered_emails] is the local variable as
    it stands when an iteration starts ([None]: not bound yet); [budget]
    bounds the number of iterations. *)
Fixpoint paging_loop (budget : nat) (messages : option (list MsgRef))
  (unfiltered_emails : option string) : M string :=
  match budget with
  | 0 => out_of_budget
  | S budget' =>
      r <- page_step messages ;
      if truthy (snd r) then paging_loop budget' messages (Some (fst r))
      else ret (fst r)
  end.

Definition filter_content (unfiltered_emails : string) : Filter :=
  {| f_id := None;
     criteria := {| c_from := Some unfiltered_emails |};
     action := {| addLabelIds := ["TRASH"]; removeLabelIds := ["INBOX"] |} |}.

(** The [try] block of [main].  The credential block before it is not
    embedded; it leaves [token.json] in place. *)
Definition main_try (budget : nat) : M unit :=
  response <- messages_list (Some 250) None ;
  let messages := lr_messages response in
  unfiltered_emails <- paging_loop budget messages None ;
  result <- filters_create (filter_content unfiltered_emails) ;
  print ("Created filter with id: " +:+ default "None" (f_id result)).

(** The text of the error after the colon is the provider's and is not
    modelled. *)
Definition main (budget : nat) : M unit :=
  try_except_http (main_try budget) (print "An error occurred: ").

End CreateFilter.

(** ** scripts/delete_messages.py *)

Module DeleteMessages.
Import Common.

(** Body of [for header in message_data["payload"]["headers"]]. *)
Definition note_id (senders : list string) (message_data : MessageData)
  (unique_senders_msgs_id : list string) (header : Header) : list string :=
  if decide (h_name header = "From") then
    if decide (h_value header ∈ senders)
    then unique_senders_msgs_id ++ [md_id message_data]
    else unique_senders_msgs_id
  else unique_senders_msgs_id.

Fixpoint ids_loop (messages_list : list MsgRef) (senders : list string)
  (unique_senders_msgs_id : list string) : M (list string) :=
  match messages_list with
  | [] => ret unique_senders_msgs_id
  | mess :: rest =>
      id <- getitem mess "id" ;
      message_data <- messages_get id ;
      ids_loop rest senders
        (foldl (note_id senders message_data) unique_senders_msgs_id
           (md_headers message_data))
  end.

Definition get_marked_senders_msg_id (messages_list : option (list MsgRef))
  (senders : list string) : M (list string) :=
  match messages_list with
  | None => raise TypeError
  | Some l => ids_loop l senders []
  end.

(** The [try] block of [main]; the executor's result is dropped.  The
    credential block before it is not embedded; it leaves [token.json] in
    place. *)
Definition main_try : M unit :=
  response <- messages_list None None ;
  let messages := lr_messages response in
  unique <- get_unique_senders messages ;
  order <- iterate unique ;
  senders <- mark_senders order ;
  _ <- get_marked_senders_msg_id messages senders ;
  remove_token.

Definition main : M unit :=
  try_except_http main_try (print "An error occurred: ").

End DeleteMessages.

(** ** Vocabulary of the statements *)

(** [c] occurs in [s]. *)
Fixpoint occurs (c : ascii) (s : string) : bool :=
  match s with
  | EmptyString => false
  | String d r => Ascii.eqb d c || occurs c r
  end.

(** [g] is the text strictly between the first [<] of [text] and the
    first [>] after it. *)
Definition first_bracket_pair (text g : string) : Prop :=
  exists pre post,
    text = pre +:+ String Py.LT (g +:+ String Py.GT post) /\
    occurs Py.LT pre = false /\ occurs Py.GT g = false.

(** Some [<] of [text] has a [>] after it. *)
Definition has_bracket_pair (text : string) : Prop :=
  exists pre mid post,
    text = pre +:+ String Py.LT (mid +:+ String Py.GT post).

(** The operator's answers, up to case. *)
Definition says_yes (line : string) : Prop := line = "y" \/ line = "Y".

Definition says_no (line : string) : Prop := line = "n" \/ line = "N".



(** The provider's state after a sequence of requests. *)
Definition serve_all (s : Server) (qs : list Request) : Server :=
  foldl (fun s q => fst (serve s q)) s qs.

Definition is_deletion (q : Request) : bool :=
  match q with
  | MessagesDelete _ | MessagesBatchDelete _ => true
  | _ => false
  end.

Definition is_create (q : Request) : bool :=
  match q with FiltersCreate _ => true | _ => false end.

Definition is_list (q : Request) : bool :=
  match q with MessagesList _ _ => true | _ => false end.

(** [w'] comes after [w] in a run: requests satisfying [P] were sent and
    served in between, and the token file was not touched. *)
Definition extends (P : Request -> Prop) (w w' : World) : Prop :=
  exists new,
    sent w' = sent w ++ new /\ Forall P new /\
    server w' = serve_all (server w) new /\
    hash_order w' = hash_order w /\ token_json w' = token_json w.

(** Whatever its outcome, [m] only sends requests satisfying [P]. *)
Definition sends {A} (P : Request -> Prop) (m : M A) : Prop :=
  forall w, extends P w (snd (m w)).

(** [w'] is reached from [w] by whole passes through the loop body of
    the filter script, each ending with a page token that is true. *)
Inductive iterations (messages : option (list MsgRef)) : World -> World -> Prop :=
| iterations_none w : iterations messages w w
| iterations_more w u tok w1 w2 :
    CreateFilter.page_step messages w = (Done (u, tok), w1) ->
    CreateFilter.truthy tok = true ->
    iterations messages w1 w2 ->
    iterations messages w w2.

(** The deletion script up to the call of its executor. *)
Definition before_executor : M (option (list MsgRef) * list string) :=
  response <- messages_list None None ;
  unique <- Common.get_unique_senders (lr_messages response) ;
  order <- iterate unique ;
  senders <- Common.mark_senders order ;
  ret (lr_messages response, senders).


(** The identifiers the executor collects from one fetched message:
    its own, once for each [From] header whose value is a marked sender. *)
Definition matching_ids (senders : list string) (md : MessageData)
  : list string :=
  (fun _ => md_id md) <$>
  filter (fun h => h_name h = "From" /\ h_value h ∈ senders) (md_headers md).

(** [md] is what the provider holds under the identifier of [mess]. *)
Definition fetched (s : Server) (mess : MsgRef) (md : MessageData) : Prop :=
  exists id, mess !! "id" = Some id /\ store s !! id = Some md.

(** [email] occurs in the [from] criterion of [f]. *)
Definition covers (email : string) (f : Filter) : Prop :=
  match c_from (criteria f) with
  | Some from => Py.contains email from = true
  | None => False
  end.

#[local] Instance covers_dec (email : string) (f : Filter) :
  Decision (covers email f).
Proof. unfold covers. destruct (c_from (criteria f)); apply _. Defined.

(** ** Sample data *)

Definition ref (id : string) : MsgRef := {[ "id" := id ]}.

Definition mail (id from : string) : MessageData :=
  {| md_id := id;
     md_headers := [ {| h_name := "Subject"; h_value := "hello" |};
                     {| h_name := "From"; h_value := from |} ] |}.

Definition from_filter (from : string) : Filter :=
  {| f_id := Some "F0"; criteria := {| c_from := Some from |};
     action := {| addLabelIds := ["TRASH"]; removeLabelIds := ["INBOX"] |} |}.

(** A filter that matches on something other than the sender. *)
Definition subject_filter : Filter :=
  {| f_id := Some "F0"; criteria := {| c_from := None |};
     action := {| addLabelIds := ["STARRED"]; removeLabelIds := [] |} |}.

(** A mailbox of three messages that the provider lists in two pages. *)
Definition two_pages (fs : option (list Filter)) : Server :=
  {| first_page :=
       {| lr_messages := Some [ref "m1"; ref "m2"];
          lr_nextPageToken := Some "p2" |};
     more_pages :=
       {[ "p2" := {| lr_messages := Some [ref "m3"];
                     lr_nextPageToken := None |} ]};
     store := {[ "m1" := mail "m1" "Alice <a@x.com>";
                 "m2" := mail "m2" "Bob <b@y.com>";
                 "m3" := mail "m3" "Carol <c@z.com>" ]};
     filters := fs; next_filter_id := "F1"; faults := [] |}.

(** The listing a mailbox without messages gets: no [messages] key. *)
Definition empty_mailbox : Server :=
  {| first_page := {| lr_messages := None; lr_nextPageToken := None |};
     more_pages := ∅; store := ∅;
     filters := None; next_filter_id := "F1"; faults := [] |}.


(** A listing whose last message reference itself carries a
    [nextPageToken] entry. *)
Definition token_in_message : Server :=
  {| first_page :=
       {| lr_messages :=
            Some [ref "m1"; <[ "nextPageToken" := "p2" ]> (ref "m2")];
          lr_nextPageToken := Some "p2" |};
     more_pages :=
       {[ "p2" := {| lr_messages := Some [ref "m3"];
                     lr_nextPageToken := None |} ]};
     store := {[ "m1" := mail "m1" "Alice <a@x.com>";
                 "m2" := mail "m2" "Bob <b@y.com>";
                 "m3" := mail "m3" "Carol <c@z.com>" ]};
     filters := None; next_filter_id := "F1"; faults := [] |}.

(** A listing with a [messages] key and nothing under it. *)
Definition empty_list : Server :=
  {| first_page := {| lr_messages := Some []; lr_nextPageToken := None |};
     more_pages := ∅; store := ∅;
     filters := None; next_filter_id := "F1"; faults := [] |}.

Definition start (s : Server) (lines : list string) : World :=
  {| server := s; stdin := lines; stdout := []; token_json := true;
     sent := []; hash_order := elements |}.

(** ** The credential block of [main]

    Both scripts open [main] with the same block.  What the OAuth
    library does is outside the repository and is given by [AuthEnv]:
    what loading the token file yields, and whether a refresh or the
    consent flow succeeds.  [None] stands for the call raising, which
    nothing in [main] catches. *)

Record Credentials := { valid : bool; expired : bool; refresh_token : bool }.

Record AuthEnv := {
  from_authorized_user_file : option Credentials;
  refresh : Credentials -> option Credentials;
  run_local_server : option Credentials
}.

Inductive AuthAction := LoadToken | Refresh | Consent | WriteToken.

(** [creds]: the credentials the block ends with, [None] when a call
    raised; [token_after]: whether [token.json] exists afterwards. *)
Record AuthRun := {
  creds : option Credentials;
  token_after : bool;
  actions : list AuthAction
}.

(** [not creds or not creds.valid]. *)
Definition needs_login (creds : option Credentials) : bool :=
  match creds with
  | None => true
  | Some c => negb (valid c)
  end.

(** [creds and creds.expired and creds.refresh_token]. *)
Definition can_refresh (creds : option Credentials) : bool :=
  match creds with
  | None => false
  | Some c => expired c && refresh_token c
  end.

(** From [if not creds or not creds.valid:] on. *)
Definition login (env : AuthEnv) (loaded : option Credentials)
  (token : bool) (done : list AuthAction) : AuthRun :=
  if needs_login loaded then
    match loaded with
    | Some c =>
        if can_refresh loaded then
          match refresh env c with
          | Some c' =>
              {| creds := Some c'; token_after := true;
                 actions := done ++ [Refresh; WriteToken] |}
          | None =>
              {| creds := None; token_after := token;
                 actions := done ++ [Refresh] |}
          end
        else
          match run_local_server env with
          | Some c' =>
              {| creds := Some c'; token_after := true;
                 actions := done ++ [Consent; WriteToken] |}
          | None =>
              {| creds := None; token_after := token;
                 actions := done ++ [Consent] |}
          end
    | None =>
        match run_local_server env with
        | Some c' =>
            {| creds := Some c'; token_after := true;
               actions := done ++ [Consent; WriteToken] |}
        | None =>
            {| creds := None; token_after := token;
               actions := done ++ [Consent] |}
        end
    end
  else {| creds := loaded; token_after := token; actions := done |}.

(** Lines 124 to 139 of [create_filter.py], 127 to 142 of
    [delete_messages.py]; [token] tells whether [token.json] exists. *)
Definition credentials_block (env : AuthEnv) (token : bool) : AuthRun :=
  if token then
    match from_authorized_user_file env with
    | Some c => login env (Some c) true [LoadToken]
    | None => {| creds := None; token_after := true; actions := [LoadToken] |}
    end
  else login env None false [].

Definition with_token (t : bool) (w : World) : World :=
  {| server := server w; stdin := stdin w; stdout := stdout w;
     token_json := t; sent := sent w; hash_order := hash_order w |}.

(** How a whole script ends: in the credential block, or with the
    outcome of the [try] statement. *)
Inductive ScriptEnd :=
| AuthFailed
| Ran (o : Outcome unit).

(** [main] of [delete_messages.py], whole. *)
Definition delete_script (env : AuthEnv) (w : World)
  : ScriptEnd * list AuthAction * World :=
  let run := credentials_block env (token_json w) in
  match creds run with
  | None => (AuthFailed, actions run, with_token (token_after run) w)
  | Some _ =>
      let '(o, w') := DeleteMessages.main (with_token (token_after run) w) in
      (Ran o, actions run, w')
  end.

(** [main] of [create_filter.py], whole. *)
Definition filter_script (env : AuthEnv) (budget : nat) (w : World)
  : ScriptEnd * list AuthAction * World :=
  let run := credentials_block env (token_json w) in
  match creds run with
  | None => (AuthFailed, actions run, with_token (token_after run) w)
  | Some _ =>
      let '(o, w') := CreateFilter.main budget (with_token (token_after run) w) in
      (Ran o, actions run, w')
  end.

(** ** Further vocabulary *)

(** The values of the [From] headers of a message, in order. *)
Definition from_values (md : MessageData) : list string :=
  h_value <$> filter (fun h => h_name h = "From") (md_headers md).

(** [ids] are the identifiers the references [l] carry, in order. *)
Definition ids_of (l : list MsgRef) (ids : list string) : Prop :=
  Forall2 (fun (mess : MsgRef) id => mess !! "id" = Some id) l ids.

(** The senders of [items] whose answer, at the same position in
    [answers], is a yes. *)
Fixpoint marked_by (items answers : list string) : list string :=
  match items, answers with
  | item :: items', a :: answers' =>
      if String.eqb (Py.lower a) "y" then item :: marked_by items' answers'
      else marked_by items' answers'
  | _, _ => []
  end.

(** Every run of [m] ends with a result or with an exception of [E],
    or, and only if [R] holds, is still going when the budget is used
    up. *)
Definition outcomes {A} (E : Exn -> Prop) (R : Prop) (m : M A) : Prop :=
  forall w,
    match fst (m w) with
    | Done _ => True
    | Raised e => E e
    | Running => R
    end.

(** The exceptions the functions of the scripts can raise. *)
Definition script_error (e : Exn) : Prop :=
  e = HttpError \/ e = TypeError \/ e = KeyError \/ e = EOFError.

(** A working sign-in environment: the stored token is still valid. *)
Definition signed_in : AuthEnv :=
  {| from_authorized_user_file :=
       Some {| valid := true; expired := false; refresh_token := true |};
     refresh := fun c => Some c;
     run_local_server :=
       Some {| valid := true; expired := false; refresh_token := true |} |}.

(** * Properties *)

(** ** Strings *)

Lemma append_nil_r (s : string) : s +:+ "" = s.
Proof. induction s as [|c s IH]; simpl; [reflexivity | now rewrite IH]. Qed.

Lemma append_assoc (a b c : string) : (a +:+ b) +:+ c = a +:+ b +:+ c.
Proof. induction a as [|x a IH]; simpl; [reflexivity | now rewrite IH]. Qed.

Lemma prefix_spec (p s : string) :
  String.prefix p s = true <-> exists post, s = p +:+ post.
Proof.
  revert s; induction p as [|c p IH]; intros s.
  - split; [intros _; now exists s | intros _; now destruct s].
  - destruct s as [|d s]; simpl.
    + split; [discriminate | intros [post H]; discriminate].
    + destruct (ascii_dec c d) as [->|Hne].
      * rewrite IH. split; intros [post H]; exists post; congruence.
      * split; [discriminate | intros [post H]; congruence].
Qed.

(** [Py.contains] is the substring test. *)
Lemma contains_spec (needle hay : string) :
  Py.contains needle hay = true <->
  exists pre post, hay = pre +:+ needle +:+ post.
Proof.
  induction hay as [|c hay IH].
  - change (Py.contains needle "") with (String.prefix needle "" || false).
    rewrite orb_false_r, prefix_spec. split.
    + intros [post H]. now exists "", post.
    + intros [[|d pre] [post H]]; [now exists post | discriminate].
  - change (Py.contains needle (String c hay))
      with (String.prefix needle (String c hay) || Py.contains needle hay).
    rewrite orb_true_iff, prefix_spec, IH. split.
    + intros [[post H] | (pre & post & H)].
      * now exists "", post.
      * exists (String c pre), post. simpl. now rewrite H.
    + intros ([|d pre] & post & H).
      * left. now exists post.
      * right. exists pre, post. simpl in H. congruence.
Qed.


(** ** The bracket pattern *)

Lemma lazy_group_found (g post : string) :
  occurs Py.GT g = false -> occurs Py.LF g = false ->
  Py.lazy_group (g +:+ String Py.GT post) = Some g.
Proof.
  induction g as [|c g IH]; simpl; intros Hgt Hlf; [reflexivity |].
  apply orb_false_elim in Hgt as [Hc Hgt].
  apply orb_false_elim in Hlf as [Hc' Hlf].
  rewrite Hc, Hc', IH by assumption. reflexivity.
Qed.

Lemma lazy_group_some (s g : string) :
  Py.lazy_group s = Some g ->
  exists post, s = g +:+ String Py.GT post /\
    occurs Py.GT g = false /\ occurs Py.LF g = false.
Proof.
  revert g; induction s as [|c s IH]; simpl; intros g H; [discriminate |].
  destruct (Ascii.eqb c Py.GT) eqn:Hgt.
  - apply Ascii.eqb_eq in Hgt as ->. injection H as <-. now exists s.
  - destruct (Ascii.eqb c Py.LF) eqn:Hlf; [discriminate |].
    destruct (Py.lazy_group s) as [g'|] eqn:Hs; [|discriminate].
    injection H as <-. destruct (IH g' eq_refl) as (post & -> & H1 & H2).
    exists post. simpl. now rewrite Hgt, Hlf, H1, H2.
Qed.

Lemma search_skip (pre s : string) :
  occurs Py.LT pre = false ->
  Py.re_search_brackets (pre +:+ s) = Py.re_search_brackets s.
Proof.
  induction pre as [|c pre IH]; simpl; intros H; [reflexivity |].
  apply orb_false_elim in H as [Hc H]. now rewrite Hc, IH.
Qed.

Lemma search_found (text g : string) :
  first_bracket_pair text g -> occurs Py.LF g = false ->
  Py.re_search_brackets text = Some g.
Proof.
  intros (pre & post & -> & Hpre & Hg) Hlf.
  rewrite search_skip by assumption. simpl.
  now rewrite lazy_group_found.
Qed.

Lemma search_none (text : string) :
  ~ has_bracket_pair text -> Py.re_search_brackets text = None.
Proof.
  induction text as [|c text IH]; simpl; intros Hno; [reflexivity |].
  assert (Htail : Py.re_search_brackets text = None).
  { apply IH. intros (pre & mid & post & ->).
    apply Hno. now exists (String c pre), mid, post. }
  destruct (Ascii.eqb c Py.LT) eqn:Hc; [|assumption].
  apply Ascii.eqb_eq in Hc as ->.
  destruct (Py.lazy_group text) as [g|] eqn:Hg; [|assumption].
  destruct (lazy_group_some _ _ Hg) as (post & -> & _).
  exfalso. apply Hno. now exists "", g, post.
Qed.

Lemma emails_loop_acc (senders emails : list string) :
  Common.emails_loop senders emails =
  emails ++ omap Py.re_search_brackets senders.
Proof.
  revert emails; induction senders as [|t l IH]; intros emails; simpl.
  - now rewrite app_nil_r.
  - destruct (Py.re_search_brackets t); rewrite IH; [|reflexivity].
    now rewrite <- app_assoc.
Qed.

Lemma extract_emails_omap (senders : list string) :
  Common.extract_emails senders = omap Py.re_search_brackets senders.
Proof. unfold Common.extract_emails. now rewrite emails_loop_acc. Qed.

Lemma extract_emails_app (l1 l2 : list string) :
  Common.extract_emails (l1 ++ l2) =
  Common.extract_emails l1 ++ Common.extract_emails l2.
Proof. rewrite !extract_emails_omap. apply omap_app. Qed.

Lemma bracket_pair_occurs (text : string) :
  has_bracket_pair text -> occurs Py.LT text = true.
Proof.
  intros (pre & mid & post & ->).
  induction pre as [|c pre IH]; simpl; [reflexivity |].
  rewrite IH. apply orb_true_r.
Qed.

(** C3, as amended: a sender whose first [<] is followed by a [>] with
    no line feed in between contributes exactly the text strictly between
    that [<] and the first [>] after it, at its place in the output list;
    a sender with no bracket pair contributes no entry. *)
Theorem C3_extract_emails (before after : list string) (text : string) :
  (forall g, first_bracket_pair text g -> occurs Py.LF g = false ->
     Common.extract_emails (before ++ text :: after) =
     Common.extract_emails before ++ g :: Common.extract_emails after) /\
  (~ has_bracket_pair text ->
     Common.extract_emails (before ++ text :: after) =
     Common.extract_emails before ++ Common.extract_emails after).
Proof.
  split.
  - intros g Hpair Hlf.
    rewrite extract_emails_app. f_equal.
    rewrite !extract_emails_omap. simpl.
    now rewrite (search_found _ _ Hpair Hlf).
  - intros Hno.
    rewrite extract_emails_app. f_equal.
    rewrite !extract_emails_omap. simpl.
    now rewrite (search_none _ Hno).
Qed.

Lemma C3_extract_emails_witness :
  Common.extract_emails (["Alice <a@x.com>"] ++ "Bob <b@y.com>" :: ["c"]) =
  Common.extract_emails ["Alice <a@x.com>"] ++
    "b@y.com" :: Common.extract_emails ["c"] /\
  Common.extract_emails (["Alice <a@x.com>"] ++ "no-brackets-here" :: []) =
  Common.extract_emails ["Alice <a@x.com>"] ++ Common.extract_emails [].
Proof.
  split.
  - apply (proj1 (C3_extract_emails ["Alice <a@x.com>"] ["c"] "Bob <b@y.com>")).
    + exists "Bob ", "". repeat split; reflexivity.
    + reflexivity.
  - apply (proj2 (C3_extract_emails ["Alice <a@x.com>"] [] "no-brackets-here")).
    intros H. apply bracket_pair_occurs in H. vm_compute in H. discriminate H.
Defined.

(** C3 as the specification states it fails when a line feed stands
    between the brackets: the pattern's [.] does not cross it, so the
    first bracket pair is passed over and a later one is taken. *)
Lemma C3_line_feed_counterexample :
  first_bracket_pair ("Ann <a" +:+ String Py.LF "b> <c@d>")
    ("a" +:+ String Py.LF "b") /\
  Common.extract_emails ["Ann <a" +:+ String Py.LF "b> <c@d>"] = ["c@d"] /\
  Common.extract_emails ["Ann <a" +:+ String Py.LF "b> <c@d>"] <>
    ["a" +:+ String Py.LF "b"].
Proof.
  split; [|split].
  - exists "Ann ", " <c@d>". repeat split; reflexivity.
  - reflexivity.
  - intros H. vm_compute in H. discriminate H.
Qed.

(** ** The marking loop *)

Lemma lower_ascii_y (c : ascii) :
  Py.lower_ascii c = "y"%char -> c = "y"%char \/ c = "Y"%char.
Proof.
  destruct c as [[] [] [] [] [] [] [] []]; vm_compute; intros H;
    first [discriminate H | now left | now right].
Qed.

Lemma lower_ascii_n (c : ascii) :
  Py.lower_ascii c = "n"%char -> c = "n"%char \/ c = "N"%char.
Proof.
  destruct c as [[] [] [] [] [] [] [] []]; vm_compute; intros H;
    first [discriminate H | now left | now right].
Qed.

Lemma lower_yes (line : string) : Py.lower line = "y" <-> says_yes line.
Proof.
  split.
  - destruct line as [|c [|d r]]; simpl; intros H; try discriminate H.
    injection H as H. destruct (lower_ascii_y c H) as [-> | ->];
      [now left | now right].
  - intros [-> | ->]; reflexivity.
Qed.

Lemma lower_no (line : string) : Py.lower line = "n" <-> says_no line.
Proof.
  split.
  - destruct line as [|c [|d r]]; simpl; intros H; try discriminate H.
    injection H as H. destruct (lower_ascii_n c H) as [-> | ->];
      [now left | now right].
  - intros [-> | ->]; reflexivity.
Qed.

Lemma valid_mark_spec (line : string) :
  Common.valid_mark (Py.lower line) = true <-> says_yes line \/ says_no line.
Proof.
  unfold Common.valid_mark.
  rewrite orb_true_iff, !String.eqb_eq, lower_yes, lower_no. reflexivity.
Qed.







(** ** What a run sends *)

Lemma serve_all_app (s : Server) (qs1 qs2 : list Request) :
  serve_all s (qs1 ++ qs2) = serve_all (serve_all s qs1) qs2.
Proof. apply foldl_app. Qed.

Lemma extends_refl (P : Request -> Prop) (w : World) : extends P w w.
Proof. exists []. rewrite app_nil_r. repeat split. constructor. Qed.

Lemma extends_trans (P : Request -> Prop) (w1 w2 w3 : World) :
  extends P w1 w2 -> extends P w2 w3 -> extends P w1 w3.
Proof.
  intros (n1 & Hs1 & Hp1 & Hv1 & Hh1 & Ht1) (n2 & Hs2 & Hp2 & Hv2 & Hh2 & Ht2).
  exists (n1 ++ n2). repeat split.
  - now rewrite Hs2, Hs1, app_assoc.
  - apply Forall_app; now split.
  - now rewrite Hv2, Hv1, serve_all_app.
  - congruence.
  - congruence.
Qed.

Lemma extends_weaken (P Q : Request -> Prop) (w w' : World) :
  (forall q, P q -> Q q) -> extends P w w' -> extends Q w w'.
Proof.
  intros HPQ (n & Hs & Hp & Hrest). exists n. repeat split; try tauto.
  eapply Forall_impl; eauto.
Qed.

Section Sends.
Context (P : Request -> Prop).

Lemma sends_ret {A} (a : A) : sends P (ret a).
Proof. intros w. apply extends_refl. Qed.

Lemma sends_raise {A} (e : Exn) : sends P (@raise A e).
Proof. intros w. apply extends_refl. Qed.

Lemma sends_out_of_budget {A} : sends P (@out_of_budget A).
Proof. intros w. apply extends_refl. Qed.

Lemma sends_bind {A B} (m : M A) (k : A -> M B) :
  sends P m -> (forall a, sends P (k a)) -> sends P (bind m k).
Proof.
  intros Hm Hk w. unfold bind. specialize (Hm w).
  destruct (m w) as [[a | e |] w1]; simpl in *; try assumption.
  eapply extends_trans; [exact Hm | apply Hk].
Qed.

Lemma sends_execute (q : Request) : P q -> sends P (execute q).
Proof.
  intros Hq w. unfold execute.
  assert (H : extends P w (with_server (fst (serve (server w) q)) q w)).
  { exists [q]. repeat split. now constructor. }
  destruct (serve (server w) q) as [s [r |]]; exact H.
Qed.

Lemma sends_print (line : string) : sends P (print line).
Proof. intros w. exists []. simpl. rewrite app_nil_r. repeat split. constructor. Qed.

Lemma sends_iterate (s : gset string) : sends P (iterate s).
Proof. intros w. apply extends_refl. Qed.

Lemma sends_getitem (d : MsgRef) (key : string) : sends P (getitem d key).
Proof. unfold getitem. destruct (d !! key); [apply sends_ret | apply sends_raise]. Qed.

Lemma sends_read_mark (item : string) : sends P (Common.read_mark item).
Proof.
  intros w. unfold Common.read_mark.
  destruct (Common.ask item (stdin w) (stdout w)) as [[r i] o]. simpl.
  exists []. simpl. rewrite app_nil_r. repeat split. constructor.
Qed.

Lemma sends_try {A} (body handler : M A) :
  sends P body -> sends P handler -> sends P (try_except_http body handler).
Proof.
  intros Hb Hh w. unfold try_except_http. specialize (Hb w).
  destruct (body w) as [[a | [] |] w1]; simpl in *; try assumption.
  eapply extends_trans; [exact Hb | apply Hh].
Qed.

Lemma sends_mark_loop (items marked : list string) :
  sends P (Common.mark_loop items marked).
Proof.
  revert marked; induction items as [|item rest IH]; intros marked; simpl.
  - apply sends_ret.
  - apply sends_bind; [apply sends_read_mark | intros mark; apply IH].
Qed.

End Sends.

Create HintDb sends.
#[local] Hint Resolve sends_ret sends_raise sends_out_of_budget sends_bind
  sends_execute sends_print sends_iterate sends_getitem sends_read_mark
  sends_try sends_mark_loop : sends.

Section SendsScripts.
Context (P : Request -> Prop).

Lemma sends_messages_list (n : option nat) (t : option string) :
  P (MessagesList n t) -> sends P (messages_list n t).
Proof.
  intros H. unfold messages_list. apply sends_bind; [auto with sends |].
  intros []; auto with sends.
Qed.

Lemma sends_messages_get (id : string) :
  P (MessagesGet id) -> sends P (messages_get id).
Proof.
  intros H. unfold messages_get. apply sends_bind; [auto with sends |].
  intros []; auto with sends.
Qed.

Lemma sends_filters_list : P FiltersList -> sends P filters_list.
Proof.
  intros H. unfold filters_list. apply sends_bind; [auto with sends |].
  intros []; auto with sends.
Qed.

Lemma sends_filters_create (body : Filter) :
  P (FiltersCreate body) -> sends P (filters_create body).
Proof.
  intros H. unfold filters_create. apply sends_bind; [auto with sends |].
  intros []; auto with sends.
Qed.

Hypothesis P_get : forall id, P (MessagesGet id).

Lemma sends_senders_loop (l : list MsgRef) (u : gset string) :
  sends P (Common.senders_loop l u).
Proof.
  revert u; induction l as [|mess rest IH]; intros u; simpl.
  - apply sends_ret.
  - apply sends_bind; [apply sends_getitem | intros id].
    apply sends_bind; [now apply sends_messages_get | intros md; apply IH].
Qed.

Lemma sends_get_unique_senders (messages : option (list MsgRef)) :
  sends P (Common.get_unique_senders messages).
Proof.
  destruct messages; simpl; [apply sends_senders_loop | apply sends_raise].
Qed.

Lemma sends_ids_loop (l : list MsgRef) (senders acc : list string) :
  sends P (DeleteMessages.ids_loop l senders acc).
Proof.
  revert acc; induction l as [|mess rest IH]; intros acc; simpl.
  - apply sends_ret.
  - apply sends_bind; [apply sends_getitem | intros id].
    apply sends_bind; [now apply sends_messages_get | intros md; apply IH].
Qed.

Lemma sends_get_marked_senders_msg_id (messages : option (list MsgRef))
  (senders : list string) :
  sends P (DeleteMessages.get_marked_senders_msg_id messages senders).
Proof.
  destruct messages; simpl; [apply sends_ids_loop | apply sends_raise].
Qed.

Lemma sends_before_executor :
  P (MessagesList None None) -> sends P before_executor.
Proof.
  intros H. unfold before_executor, Common.mark_senders.
  apply sends_bind; [now apply sends_messages_list | intros r].
  apply sends_bind; [apply sends_get_unique_senders | intros u].
  auto with sends.
Qed.

Hypothesis P_filters : P FiltersList.

Lemma sends_unfiltered_list (emails : list string) :
  sends P (CreateFilter.unfiltered_list emails).
Proof.
  unfold CreateFilter.unfiltered_list.
  apply sends_bind; [now apply sends_filters_list | intros [fs|]].
  - destruct (CreateFilter.unfiltered_loop fs emails []); auto with sends.
  - auto with sends.
Qed.

Lemma sends_last_page_token (messages : option (list MsgRef)) :
  sends P (CreateFilter.last_page_token messages).
Proof.
  destruct messages as [l|]; simpl; [|apply sends_raise].
  destruct (last l); auto with sends.
Qed.

Lemma sends_page_step (messages : option (list MsgRef)) :
  sends P (CreateFilter.page_step messages).
Proof.
  unfold CreateFilter.page_step, CreateFilter.identify_unfiltered_emails,
    Common.mark_senders.
  apply sends_bind; [apply sends_get_unique_senders | intros u].
  apply sends_bind; [apply sends_iterate | intros order].
  apply sends_bind; [apply sends_mark_loop | intros senders].
  apply sends_bind.
  { apply sends_bind; [apply sends_unfiltered_list | auto with sends]. }
  intros unf. apply sends_bind; [apply sends_last_page_token | auto with sends].
Qed.

Lemma sends_paging_loop (budget : nat) (messages : option (list MsgRef))
  (acc : option string) :
  sends P (CreateFilter.paging_loop budget messages acc).
Proof.
  revert acc; induction budget as [|b IH]; intros acc; simpl.
  - apply sends_out_of_budget.
  - apply sends_bind; [apply sends_page_step | intros r].
    destruct (CreateFilter.truthy (snd r)); [apply IH | apply sends_ret].
Qed.

End SendsScripts.

(** ** The provider's mailbox under requests that are not deletions *)

Lemma serve_mailbox (s : Server) (q : Request) :
  is_deletion q = false -> mailbox (fst (serve s q)) = mailbox s.
Proof.
  intros Hq. unfold serve.
  assert (Ha : forall s0, mailbox (fst (answer s0 q)) = mailbox s0).
  { intros s0. destruct q as [n [t|] | id | id | ids | | body];
      try discriminate Hq; reflexivity. }
  destruct (faults s) as [|[] fs]; [apply Ha | reflexivity |].
  now rewrite Ha.
Qed.

Lemma serve_all_mailbox (qs : list Request) (s : Server) :
  Forall (fun q => is_deletion q = false) qs ->
  mailbox (serve_all s qs) = mailbox s.
Proof.
  intros H; revert s; induction H as [|q qs Hq _ IH]; intros s.
  - reflexivity.
  - unfold serve_all in *. simpl. now rewrite IH, serve_mailbox.
Qed.

(** ** The deletion script *)

Lemma delete_main_try_split (w : World) :
  DeleteMessages.main_try w =
  match before_executor w with
  | (Done p, w1) =>
      match DeleteMessages.get_marked_senders_msg_id (fst p) (snd p) w1 with
      | (Done _, w2) => remove_token w2
      | (Raised e, w2) => (Raised e, w2)
      | (Running, w2) => (Running, w2)
      end
  | (Raised e, w1) => (Raised e, w1)
  | (Running, w1) => (Running, w1)
  end.
Proof.
  unfold DeleteMessages.main_try, before_executor, bind.
  destruct (messages_list None None w) as [[r | e |] w0]; try reflexivity.
  destruct (Common.get_unique_senders (lr_messages r) w0) as [[u | e |] w1];
    try reflexivity.
  unfold iterate.
  destruct (Common.mark_senders (hash_order w1 u) w1) as [[senders | e |] w2];
    reflexivity.
Qed.

Lemma no_deletion_get (id : string) : is_deletion (MessagesGet id) = false.
Proof. reflexivity. Qed.




(** ** The deletion script's executor *)

Lemma note_id_fold (senders : list string) (md : MessageData)
  (hs : list Header) (acc : list string) :
  foldl (DeleteMessages.note_id senders md) acc hs =
  acc ++ ((fun _ => md_id md) <$>
          filter (fun h => h_name h = "From" /\ h_value h ∈ senders) hs).
Proof.
  revert acc; induction hs as [|h hs IH]; intros acc; simpl.
  - now rewrite app_nil_r.
  - rewrite IH. unfold DeleteMessages.note_id. rewrite filter_cons.
    destruct (decide (h_name h = "From")) as [Hn | Hn];
      [destruct (decide (h_value h ∈ senders)) as [Hv | Hv] |].
    + rewrite decide_True by tauto. simpl. now rewrite <- app_assoc.
    + rewrite decide_False by tauto. reflexivity.
    + rewrite decide_False by tauto. reflexivity.
Qed.

Lemma messages_get_done (id : string) (w w' : World) (md : MessageData) :
  messages_get id w = (Done md, w') ->
  store (server w) !! id = Some md /\ store (server w') = store (server w).
Proof.
  unfold messages_get, bind, execute, serve.
  destruct (faults (server w)) as [|[] fs]; simpl.
  - destruct (store (server w) !! id) as [m|]; simpl; intros H; inversion H.
    now subst.
  - intros H; inversion H.
  - destruct (store (server w) !! id) as [m|]; simpl; intros H; inversion H.
    now subst.
Qed.

Lemma ids_loop_done (l : list MsgRef) (senders acc ids : list string)
  (w w' : World) :
  DeleteMessages.ids_loop l senders acc w = (Done ids, w') ->
  exists mds,
    Forall2 (fetched (server w)) l mds /\
    ids = acc ++ (mds ≫= matching_ids senders).
Proof.
  revert acc w; induction l as [|mess rest IH]; intros acc w; simpl.
  - intros H; inversion H; subst. exists []. split; [constructor |].
    simpl. now rewrite app_nil_r.
  - unfold bind, getitem.
    destruct (mess !! "id") as [id|] eqn:Hid; [|intros H; inversion H].
    simpl. destruct (messages_get id w) as [[md | e |] w1] eqn:Hget;
      try (intros H; inversion H; fail).
    destruct (messages_get_done _ _ _ _ Hget) as [Hmd Hstore].
    intros H. destruct (IH _ _ H) as (mds & Hall & ->).
    exists (md :: mds). split.
    + constructor; [now exists id |].
      eapply Forall2_impl; [exact Hall |].
      intros m d (i & Hi & Hs). exists i. split; [assumption | congruence].
    + rewrite note_id_fold. simpl. unfold matching_ids at 2.
      now rewrite <- app_assoc.
Qed.

Lemma matching_ids_elem (senders : list string) (md : MessageData)
  (id : string) :
  id ∈ matching_ids senders md <->
  md_id md = id /\
  exists h, h ∈ md_headers md /\ h_name h = "From" /\ h_value h ∈ senders.
Proof.
  unfold matching_ids. rewrite list_elem_of_fmap. split.
  - intros (h & -> & Hh). apply list_elem_of_filter in Hh as [[Hn Hv] Hin].
    split; [reflexivity | now exists h].
  - intros [<- (h & Hin & Hn & Hv)]. exists h. split; [reflexivity |].
    apply list_elem_of_filter. tauto.
Qed.

(** C7: when the executor returns, the identifiers it collected are
    those of the fetched messages that carry a [From] header whose value
    is equal to one of the strings of [senders], the marked senders as the
    operator chose them; they come in the order of the message list. *)
Theorem C7_marked_ids (messages : option (list MsgRef))
  (senders ids : list string) (w w' : World) :
  DeleteMessages.get_marked_senders_msg_id messages senders w = (Done ids, w') ->
  exists l mds,
    messages = Some l /\
    Forall2 (fetched (server w)) l mds /\
    ids = mds ≫= matching_ids senders /\
    (forall id, id ∈ ids <->
       exists md h, md ∈ mds /\ md_id md = id /\
         h ∈ md_headers md /\ h_name h = "From" /\ h_value h ∈ senders).
Proof.
  destruct messages as [l|]; simpl; [|intros H; inversion H].
  intros H. destruct (ids_loop_done _ _ _ _ _ _ H) as (mds & Hall & ->).
  exists l, mds. repeat split; try assumption.
  - intros Hin. simpl in Hin. apply list_elem_of_bind in Hin as (md & Hid & Hmd).
    apply matching_ids_elem in Hid as (Hid & h & Hh). exists md, h. tauto.
  - intros (md & h & Hmd & Hid & Hh). simpl. apply list_elem_of_bind.
    exists md. split; [|assumption]. apply matching_ids_elem.
    split; [assumption | now exists h].
Qed.

Lemma C7_marked_ids_witness :
  exists l mds,
    Some [ref "m1"; ref "m2"; ref "m3"] = Some l /\
    Forall2 (fetched (server (start (two_pages None) []))) l mds /\
    ["m2"] = mds ≫= matching_ids ["Bob <b@y.com>"] /\
    (forall id, id ∈ ["m2"] <->
       exists md h, md ∈ mds /\ md_id md = id /\
         h ∈ md_headers md /\ h_name h = "From" /\
         h_value h ∈ ["Bob <b@y.com>"]).
Proof.
  eapply (C7_marked_ids (Some [ref "m1"; ref "m2"; ref "m3"])
            ["Bob <b@y.com>"] ["m2"] (start (two_pages None) [])).
  vm_compute. reflexivity.
Defined.

(** The comparison is with the whole header value: the bare address of a
    marked sender matches nothing. *)
Example raw_sender_not_address :
  fst (DeleteMessages.get_marked_senders_msg_id
         (Some [ref "m1"; ref "m2"; ref "m3"]) ["b@y.com"]
         (start (two_pages None) [])) = Done [].
Proof. vm_compute. reflexivity. Qed.

(** With no provider fault pending and every listed message in the
    store, the executor does return. *)
Lemma ids_loop_returns (l : list MsgRef) (senders acc : list string)
  (w : World) :
  faults (server w) = [] ->
  Forall (fun mess => exists md, fetched (server w) mess md) l ->
  exists ids w', DeleteMessages.ids_loop l senders acc w = (Done ids, w').
Proof.
  intros Hf Hl; revert acc w Hf Hl.
  induction l as [|mess rest IH]; intros acc w Hf Hl; simpl.
  - eexists _, _. reflexivity.
  - apply Forall_cons in Hl as [(md & id & Hid & Hmd) Hrest].
    unfold bind, getitem. rewrite Hid. simpl.
    unfold messages_get, bind, execute, serve. rewrite Hf. simpl.
    rewrite Hmd. simpl. apply IH; simpl; assumption.
Qed.

(** ** The filter script: membership in existing filters *)

Lemma covered_true (email : string) (fs : list Filter) :
  CreateFilter.covered email fs = Done true -> Exists (covers email) fs.
Proof.
  induction fs as [|f fs IH]; simpl; [discriminate |].
  destruct (c_from (criteria f)) as [from|] eqn:Hf; [|discriminate].
  destruct (Py.contains email from) eqn:Hc.
  - intros _. left. unfold covers. now rewrite Hf.
  - intros H. right. now apply IH.
Qed.

Lemma covered_false (email : string) (fs : list Filter) :
  CreateFilter.covered email fs = Done false -> Forall (fun f => ~ covers email f) fs.
Proof.
  induction fs as [|f fs IH]; simpl; [constructor |].
  destruct (c_from (criteria f)) as [from|] eqn:Hf; [|discriminate].
  destruct (Py.contains email from) eqn:Hc; [discriminate |].
  intros H. constructor; [|now apply IH].
  unfold covers. rewrite Hf. congruence.
Qed.

(** When every filter has a [from] criterion the search always answers. *)
Lemma covered_answers (email : string) (fs : list Filter) :
  Forall (fun f => is_Some (c_from (criteria f))) fs ->
  exists b, CreateFilter.covered email fs = Done b.
Proof.
  induction 1 as [|f fs [from Hf] _ [b IH]]; simpl; [now exists false |].
  rewrite Hf. destruct (Py.contains email from); [now exists true |].
  now exists b.
Qed.

Lemma unfiltered_loop_done (fs : list Filter) (emails acc unf : list string) :
  CreateFilter.unfiltered_loop fs emails acc = Done unf ->
  unf = acc ++ filter (fun e => Forall (fun f => ~ covers e f) fs) emails.
Proof.
  revert acc; induction emails as [|e emails IH]; intros acc; simpl.
  - intros H; inversion H. now rewrite app_nil_r.
  - rewrite filter_cons.
    destruct (CreateFilter.covered e fs) as [[] | |] eqn:Hc; try discriminate.
    + intros H. apply covered_true in Hc.
      rewrite decide_False; [now apply IH |].
      intros Hall. apply Exists_exists in Hc as (f & Hin & Hcov).
      rewrite Forall_forall in Hall. exact (Hall f Hin Hcov).
    + intros H. apply covered_false in Hc.
      rewrite decide_True by assumption.
      rewrite (IH _ H). now rewrite <- app_assoc.
Qed.

Lemma unfiltered_loop_answers (fs : list Filter) (emails acc : list string) :
  Forall (fun f => is_Some (c_from (criteria f))) fs ->
  exists unf, CreateFilter.unfiltered_loop fs emails acc = Done unf.
Proof.
  intros Hfs; revert acc; induction emails as [|e emails IH]; intros acc; simpl.
  - now exists acc.
  - destruct (covered_answers e fs Hfs) as [[] ->]; apply IH.
Qed.

(** ** The filter script: the loop and the submitted filter *)

Lemma identify_done (emails : list string) (w w' : World) (u : string) :
  CreateFilter.identify_unfiltered_emails emails w = (Done u, w') ->
  exists unf,
    CreateFilter.unfiltered_list emails w = (Done unf, w') /\
    u = Py.join " OR " unf.
Proof.
  unfold CreateFilter.identify_unfiltered_emails, bind.
  destruct (CreateFilter.unfiltered_list emails w) as [[unf | e |] w1];
    intros H; inversion H; subst. now exists unf.
Qed.

Lemma last_page_token_done (messages : option (list MsgRef)) (w w' : World)
  (tok : option string) :
  CreateFilter.last_page_token messages w = (Done tok, w') ->
  w' = w /\
  exists l m, messages = Some l /\ last l = Some m /\
              tok = m !! "nextPageToken".
Proof.
  destruct messages as [l|]; simpl; [|intros H; inversion H].
  destruct (last l) as [m|] eqn:Hl; intros H; inversion H; subst.
  split; [reflexivity | now exists l, m].
Qed.

(** What one pass through the loop body did, when it got to the test. *)
Lemma page_step_done (messages : option (list MsgRef)) (w w' : World)
  (u : string) (tok : option string) :
  CreateFilter.page_step messages w = (Done (u, tok), w') ->
  exists unique w1 senders w2 unf,
    Common.get_unique_senders messages w = (Done unique, w1) /\
    Common.mark_senders (hash_order w1 unique) w1 = (Done senders, w2) /\
    CreateFilter.unfiltered_list (Common.extract_emails senders) w2 =
      (Done unf, w') /\
    u = Py.join " OR " unf /\
    exists l m, messages = Some l /\ last l = Some m /\
                tok = m !! "nextPageToken".
Proof.
  unfold CreateFilter.page_step, bind, iterate.
  destruct (Common.get_unique_senders messages w) as [[unique | e |] w1]
    eqn:Huniq; try (intros H; inversion H; fail).
  destruct (Common.mark_senders (hash_order w1 unique) w1)
    as [[senders | e |] w2] eqn:Hmark; try (intros H; inversion H; fail).
  destruct (CreateFilter.identify_unfiltered_emails
              (Common.extract_emails senders) w2) as [[u' | e |] w3] eqn:Hid;
    try (intros H; inversion H; fail).
  destruct (CreateFilter.last_page_token messages w3) as [[tok' | e |] w4]
    eqn:Htok; try (intros H; inversion H; fail).
  intros H; inversion H; subst.
  destruct (last_page_token_done _ _ _ _ Htok) as [-> Hlast].
  destruct (identify_done _ _ _ _ Hid) as (unf & Hunf & ->).
  exists unique, w1, senders, w2, unf.
  split; [reflexivity |]. split; [assumption |]. split; [assumption |].
  split; [reflexivity | assumption].
Qed.

(** The value the loop hands on is the one its last pass computed. *)
Lemma paging_loop_done (budget : nat) (messages : option (list MsgRef))
  (acc : option string) (w w' : World) (u : string) :
  CreateFilter.paging_loop budget messages acc w = (Done u, w') ->
  exists w_last tok,
    iterations messages w w_last /\
    CreateFilter.page_step messages w_last = (Done (u, tok), w') /\
    CreateFilter.truthy tok = false.
Proof.
  revert acc w; induction budget as [|b IH]; intros acc w; simpl.
  - intros H; inversion H.
  - unfold bind.
    destruct (CreateFilter.page_step messages w) as [[[u1 tok1] | e |] w1]
      eqn:Hstep; try (intros H; inversion H; fail).
    simpl. destruct (CreateFilter.truthy tok1) eqn:Htok.
    + intros H. destruct (IH _ _ H) as (wl & tok & Hit & Hlast & Hf).
      exists wl, tok. split; [|now split].
      eapply iterations_more; eassumption.
    + intros H; inversion H; subst. exists w, tok1.
      split; [constructor | now split].
Qed.


Lemma filters_create_sent (body : Filter) (w : World) :
  sent (snd (filters_create body w)) = sent w ++ [FiltersCreate body].
Proof.
  unfold filters_create, bind, execute.
  destruct (serve (server w) (FiltersCreate body)) as [s [[] |]]; reflexivity.
Qed.



Lemma no_create_get (id : string) : is_create (MessagesGet id) = false.
Proof. reflexivity. Qed.

(** Up to the end of the loop the filter script creates nothing. *)
Lemma create_prefix_extends (budget : nat) (w w0 w1 : World)
  (response : ListResponse) (r : Outcome string) :
  messages_list (Some 250) None w = (Done response, w0) ->
  CreateFilter.paging_loop budget (lr_messages response) None w0 = (r, w1) ->
  extends (fun q => is_create q = false) w w1.
Proof.
  intros Hlist Hloop.
  pose proof (sends_messages_list (fun q => is_create q = false)
                (Some 250) None eq_refl w) as H0.
  pose proof (sends_paging_loop (fun q => is_create q = false)
                no_create_get eq_refl budget (lr_messages response) None w0)
    as H1.
  rewrite Hlist in H0. rewrite Hloop in H1.
  eapply extends_trans; eassumption.
Qed.



(** The scenario of the specification: both senders marked, no filter
    yet.  The set of senders happens to be iterated with Alice first. *)
Example scenario_alice_bob :
  sent (snd (CreateFilter.main 1 (start (two_pages None) ["y"; "y"]))) =
  [MessagesList (Some 250) None; MessagesGet "m1"; MessagesGet "m2";
   FiltersList; FiltersCreate (CreateFilter.filter_content "a@x.com OR b@y.com")].
Proof. vm_compute. reflexivity. Qed.



(** ** Empty criteria *)







(** ** Pages, empty listings, filters without a sender criterion *)

(** In every run of the filter script the listing is asked for once, as
    the first request, with at most 250 entries and no page token. *)
Lemma create_main_lists_once (budget : nat) (w : World) :
  exists rest,
    sent (snd (CreateFilter.main budget w)) =
    sent w ++ MessagesList (Some 250) None :: rest /\
    Forall (fun q => is_list q = false) rest.
Proof.
  assert (Hlist : exists w0 r,
            messages_list (Some 250) None w = (r, w0) /\
            sent w0 = sent w ++ [MessagesList (Some 250) None]).
  { unfold messages_list, bind, execute.
    destruct (serve (server w) (MessagesList (Some 250) None)) as [s [[] |]];
      eexists _, _; split; reflexivity. }
  destruct Hlist as (w0 & r & Hlist & Hs0).
  unfold CreateFilter.main, try_except_http, CreateFilter.main_try, bind.
  rewrite Hlist. destruct r as [response | e |].
  - pose proof (sends_paging_loop (fun q => is_list q = false)
                  (fun _ => eq_refl) eq_refl budget (lr_messages response)
                  None w0) as H1.
    destruct (CreateFilter.paging_loop budget (lr_messages response) None w0)
      as [[u | e |] w1]; simpl in H1; destruct H1 as (mid & Hs1 & Hp1 & _).
    + pose proof (filters_create_sent (CreateFilter.filter_content u) w1) as Hc.
      exists (mid ++ [FiltersCreate (CreateFilter.filter_content u)]). split.
      * rewrite Hs1, Hs0, <- !app_assoc in Hc.
        destruct (filters_create (CreateFilter.filter_content u) w1)
          as [[result | [] |] w2]; simpl in *; exact Hc.
      * apply Forall_app. split; [assumption | now repeat constructor].
    + exists mid. split; [|assumption].
      rewrite Hs0, <- app_assoc in Hs1. destruct e; exact Hs1.
    + exists mid. split; [|assumption].
      rewrite Hs0, <- app_assoc in Hs1. exact Hs1.
  - exists []. split; [destruct e; exact Hs0 | constructor].
  - exists []. split; [exact Hs0 | constructor].
Qed.

(** The page token the loop tests is read off the message list, which
    the loop never replaces: every pass reads the same one. *)
Lemma page_step_token (messages : option (list MsgRef)) (w w' : World)
  (u : string) (tok : option string) :
  CreateFilter.page_step messages w = (Done (u, tok), w') ->
  forall v v' u' tok',
    CreateFilter.page_step messages v = (Done (u', tok'), v') -> tok' = tok.
Proof.
  intros H v v' u' tok' H'.
  apply page_step_done in H as (_ & _ & _ & _ & _ & _ & _ & _ & _ & Hl).
  apply page_step_done in H' as (_ & _ & _ & _ & _ & _ & _ & _ & _ & Hl').
  destruct Hl as (l & m & Hm & Hlast & ->).
  destruct Hl' as (l' & m' & Hm' & Hlast' & ->).
  congruence.
Qed.

(** So a run of the loop that ends does so in its first pass. *)
Lemma paging_loop_single_pass (budget : nat) (messages : option (list MsgRef))
  (acc : option string) (w w' : World) (u : string) :
  CreateFilter.paging_loop budget messages acc w = (Done u, w') ->
  exists tok,
    CreateFilter.page_step messages w = (Done (u, tok), w') /\
    CreateFilter.truthy tok = false.
Proof.
  intros H. destruct (paging_loop_done _ _ _ _ _ _ H) as (wl & tok & Hit & Hstep & Hf).
  destruct Hit as [w | w u1 tok1 w1 w2 Hstep1 Htrue _].
  - now exists tok.
  - rewrite (page_step_token _ _ _ _ _ Hstep _ _ _ _ Hstep1) in Htrue.
    congruence.
Qed.

(** C2, where the code departs from it: the mailbox has a second page,
    announced by the continuation token of the list response.  The script
    sends one list request, never one with a page token, and Carol's
    message on the second page is never fetched.  When the last message
    reference itself carries a token, the loop goes over the same page
    again and again until the terminal input is used up. *)
Theorem C2_second_page_never_requested :
  CreateFilter.main 5 (start (two_pages None) ["y"; "y"; "y"]) =
    (Done tt,
     snd (CreateFilter.main 5 (start (two_pages None) ["y"; "y"; "y"]))) /\
  sent (snd (CreateFilter.main 5 (start (two_pages None) ["y"; "y"; "y"]))) =
    [MessagesList (Some 250) None; MessagesGet "m1"; MessagesGet "m2";
     FiltersList;
     FiltersCreate (CreateFilter.filter_content "a@x.com OR b@y.com")] /\
  stdin (snd (CreateFilter.main 5 (start (two_pages None) ["y"; "y"; "y"]))) =
    ["y"] /\
  fst (CreateFilter.main 5 (start token_in_message ["y"; "y"; "y"])) =
    Raised EOFError /\
  sent (snd (CreateFilter.main 5 (start token_in_message ["y"; "y"; "y"]))) =
    [MessagesList (Some 250) None; MessagesGet "m1"; MessagesGet "m2";
     FiltersList; MessagesGet "m1"; MessagesGet "m2"].
Proof. repeat split; vm_compute; reflexivity. Qed.

(** C5, where the code departs from it: one existing filter matches on
    something other than the sender.  The candidate occurs in no [from]
    criterion, yet it is not reported as unfiltered: looking up the
    missing criterion raises [KeyError], which the script does not catch. *)
Theorem C5_filter_without_from :
  fst (CreateFilter.identify_unfiltered_emails ["c@z.com"]
         (start (two_pages (Some [subject_filter])) [])) = Raised KeyError /\
  fst (CreateFilter.main 5
         (start (two_pages (Some [subject_filter])) ["y"; "y"])) =
    Raised KeyError /\
  Forall (fun f => ~ covers "c@z.com" f) [subject_filter].
Proof.
  split; [|split]; try (vm_compute; reflexivity).
  repeat constructor. intros H. exact H.
Qed.

(** C9, where the code departs from it: for a mailbox without messages
    the list response has no [messages] key, and both scripts stop with a
    [TypeError] in the sender extractor; with an empty list under the key
    the filter script stops with an [IndexError] at the page token. *)
Theorem C9_empty_mailbox_is_fatal :
  fst (DeleteMessages.main (start empty_mailbox [])) = Raised TypeError /\
  fst (CreateFilter.main 5 (start empty_mailbox [])) = Raised TypeError /\
  fst (Common.get_unique_senders None (start empty_mailbox [])) =
    Raised TypeError /\
  fst (CreateFilter.main 5 (start empty_list [])) = Raised IndexError /\
  fst (DeleteMessages.main (start empty_list [])) = Done tt.
Proof. repeat split; vm_compute; reflexivity. Qed.

(** Two passes over the same page, as in the second run of C2: Alice is
    marked in the first, Bob in the second, and after the second pass the
    accumulator holds Bob's address only. *)
Example second_pass_overwrites :
  exists w1 w2,
    CreateFilter.page_step (lr_messages (first_page token_in_message))
      (start token_in_message ["y"; "n"; "n"; "y"]) =
      (Done ("a@x.com", Some "p2"), w1) /\
    CreateFilter.page_step (lr_messages (first_page token_in_message)) w1 =
      (Done ("b@y.com", Some "p2"), w2).
Proof. eexists _, _. split; vm_compute; reflexivity. Qed.

(** Once a pass has read a page token that is true, the loop cannot
    end: no budget is enough. *)
Lemma paging_loop_stuck (budget : nat) (messages : option (list MsgRef))
  (acc : option string) (w w1 : World) (u : string) (tok : option string) :
  CreateFilter.page_step messages w = (Done (u, tok), w1) ->
  CreateFilter.truthy tok = true ->
  forall v, fst (CreateFilter.paging_loop budget messages acc w) <> Done v.
Proof.
  intros Hstep Htrue v Hdone.
  destruct (CreateFilter.paging_loop budget messages acc w) as [r w'] eqn:Hloop.
  simpl in Hdone; subst r.
  destruct (paging_loop_single_pass _ _ _ _ _ _ Hloop) as (tok' & Hstep' & Hf).
  rewrite Hstep in Hstep'. congruence.
Qed.

(** A loop that ends does so whatever the budget, as long as there is
    one pass of it. *)
Lemma paging_loop_budget (b b' : nat) (messages : option (list MsgRef))
  (acc acc' : option string) (w w' : World) (u : string) :
  CreateFilter.paging_loop b messages acc w = (Done u, w') ->
  CreateFilter.paging_loop (S b') messages acc' w = (Done u, w').
Proof.
  intros H. destruct (paging_loop_single_pass _ _ _ _ _ _ H) as (tok & Hstep & Hf).
  simpl. unfold bind. rewrite Hstep. simpl. now rewrite Hf.
Qed.

(** ** The scenarios of the specification *)

Example lower_demo : Py.lower "Y" = "y" /\ Py.lower "No" = "no".
Proof. split; reflexivity. Qed.

Example search_demo :
  Py.re_search_brackets "Alice <a@x.com>" = Some "a@x.com" /\
  Py.re_search_brackets "no-brackets-here" = None /\
  Py.re_search_brackets "a<b<c>d>" = Some "b<c" /\
  Py.re_search_brackets ">a<b" = None.
Proof. repeat split; reflexivity. Qed.

(** Two messages with the same [From] value give one sender. *)
Example deduplication :
  foldl Common.note_sender
    (foldl Common.note_sender ∅ (md_headers (mail "m1" "Alice <a@x.com>")))
    (md_headers (mail "m2" "Alice <a@x.com>")) = {[ "Alice <a@x.com>" ]}.
Proof. vm_compute. reflexivity. Qed.

Example no_brackets_dropped :
  Common.extract_emails ["Alice <a@x.com>"; "no-brackets-here"] = ["a@x.com"].
Proof. reflexivity. Qed.

Example existing_filter :
  CreateFilter.unfiltered_loop [from_filter "a@x.com"] ["a@x.com"; "c@z.com"] []
  = Done ["c@z.com"].
Proof. reflexivity. Qed.

(** ** The membership check when every filter has a sender criterion *)

Lemma covers_substring (email : string) (f : Filter) :
  covers email f <->
  exists from pre post,
    c_from (criteria f) = Some from /\ from = pre +:+ email +:+ post.
Proof.
  unfold covers. destruct (c_from (criteria f)) as [from|].
  - rewrite contains_spec. split.
    + intros (pre & post & H). now exists from, pre, post.
    + intros (from' & pre & post & Hf & H). injection Hf as <-.
      now exists pre, post.
  - split; [tauto | intros (from & _ & _ & Hf & _); discriminate Hf].
Qed.

(** An address is reported as unfiltered exactly when it is a candidate
    and occurs in the [from] criterion of no filter. *)
Lemma unfiltered_when_all_from (fs : list Filter) (emails : list string)
  (w : World) :
  filters (server w) = Some fs ->
  head (faults (server w)) <> Some true ->
  Forall (fun f => is_Some (c_from (criteria f))) fs ->
  fst (CreateFilter.unfiltered_list emails w) =
  Done (filter (fun e => Forall (fun f => ~ covers e f) fs) emails).
Proof.
  intros Hfs Hfault Hall.
  destruct (unfiltered_loop_answers fs emails [] Hall) as [unf Hunf].
  pose proof (unfiltered_loop_done _ _ _ _ Hunf) as Heq. simpl in Heq.
  unfold CreateFilter.unfiltered_list, filters_list, bind, execute, serve.
  destruct (faults (server w)) as [|[] fl]; simpl in *; try congruence;
    rewrite Hfs; simpl; rewrite Hunf; simpl; now rewrite Heq.
Qed.

(** The budget plays no part in a run of the filter script that
    completes. *)
Lemma main_try_budget (b b' : nat) (w w' : World) :
  CreateFilter.main_try b w = (Done tt, w') ->
  CreateFilter.main_try (S b') w = (Done tt, w').
Proof.
  unfold CreateFilter.main_try, bind.
  destruct (messages_list (Some 250) None w) as [[response | e |] w0];
    try (intros H; inversion H; fail).
  destruct (CreateFilter.paging_loop b (lr_messages response) None w0)
    as [[u | e |] w1] eqn:Hloop; try (intros H; inversion H; fail).
  now rewrite (paging_loop_budget _ b' _ _ None _ _ _ Hloop).
Qed.

(** * Further properties of the code *)

(** ** The sender extractor *)

Lemma note_sender_fold (hs : list Header) (u : gset string) (s : string) :
  s ∈ foldl Common.note_sender u hs <->
  s ∈ u \/ exists h, h ∈ hs /\ h_name h = "From" /\ h_value h = s.
Proof.
  revert u; induction hs as [|h hs IH]; intros u; simpl.
  - split; [now left | intros [H | (h & Hin & _)]; [exact H |]].
    now apply elem_of_nil in Hin.
  - rewrite IH. unfold Common.note_sender.
    destruct (decide (h_name h = "From")) as [Hn | Hn];
      [destruct (decide (h_value h ∈ u)) as [Hv | Hv] |].
    + split.
      * intros [H | (h' & Hin & Hh)]; [now left | right].
        exists h'. split; [apply elem_of_cons; now right | exact Hh].
      * intros [H | (h' & Hin & Hn' & Hv')]; [now left |].
        apply elem_of_cons in Hin as [-> | Hin]; [left; congruence | right].
        now exists h'.
    + rewrite elem_of_union, elem_of_singleton. split.
      * intros [[-> | H] | (h' & Hin & Hh)].
        -- right. exists h. split; [apply elem_of_cons; now left | now split].
        -- now left.
        -- right. exists h'. split; [apply elem_of_cons; now right | exact Hh].
      * intros [H | (h' & Hin & Hn' & Hv')]; [now left; right |].
        apply elem_of_cons in Hin as [-> | Hin]; [left; left; congruence |].
        right. now exists h'.
    + split.
      * intros [H | (h' & Hin & Hh)]; [now left | right].
        exists h'. split; [apply elem_of_cons; now right | exact Hh].
      * intros [H | (h' & Hin & Hn' & Hv')]; [now left |].
        apply elem_of_cons in Hin as [-> | Hin]; [congruence | right].
        now exists h'.
Qed.

Lemma messages_get_sent (id : string) (w : World) :
  sent (snd (messages_get id w)) = sent w ++ [MessagesGet id] /\
  stdin (snd (messages_get id w)) = stdin w /\
  stdout (snd (messages_get id w)) = stdout w /\
  token_json (snd (messages_get id w)) = token_json w.
Proof.
  unfold messages_get, bind, execute.
  destruct (serve (server w) (MessagesGet id)) as [s [[] |]]; repeat split.
Qed.

Lemma senders_loop_done (l : list MsgRef) (u u' : gset string) (w w' : World) :
  Common.senders_loop l u w = (Done u', w') ->
  exists mds ids,
    Forall2 (fetched (server w)) l mds /\
    ids_of l ids /\
    sent w' = sent w ++ (MessagesGet <$> ids) /\
    stdin w' = stdin w /\ stdout w' = stdout w /\
    token_json w' = token_json w /\
    store (server w') = store (server w) /\
    forall s, s ∈ u' <->
      s ∈ u \/ exists md h, md ∈ mds /\ h ∈ md_headers md /\
                            h_name h = "From" /\ h_value h = s.
Proof.
  revert u w; induction l as [|mess rest IH]; intros u w; simpl.
  - intros H; inversion H; subst. exists [], []. simpl.
    rewrite app_nil_r.
    split; [constructor |]. split; [constructor |].
    do 5 (split; [reflexivity |]).
    intros s. split; [now left |].
    intros [Hs | (md & h & Hmd & _)]; [exact Hs |].
    now apply elem_of_nil in Hmd.
  - unfold bind, getitem.
    destruct (mess !! "id") as [id|] eqn:Hid; [|intros H; inversion H].
    simpl. pose proof (messages_get_sent id w) as (Hs & Hi & Ho & Ht).
    destruct (messages_get id w) as [[md | e |] w1] eqn:Hget;
      try (intros H; inversion H; fail).
    destruct (messages_get_done _ _ _ _ Hget) as [Hmd Hstore].
    simpl in Hs, Hi, Ho, Ht.
    intros H.
    destruct (IH _ _ H)
      as (mds & ids & Hall & Hids & Hs' & Hi' & Ho' & Ht' & Hst' & Hu).
    exists (md :: mds), (id :: ids).
    split; [|split; [|split; [|split; [|split; [|split; [|split]]]]]];
      try congruence.
    + constructor; [now exists id |].
      eapply Forall2_impl; [exact Hall |].
      intros m d (i & Hmi & Hsi). exists i. split; [assumption | congruence].
    + constructor; assumption.
    + rewrite Hs', Hs, <- app_assoc. reflexivity.
    + intros s. split.
      intros Hin. apply Hu in Hin as [Hin | (md' & h & Hmd' & Hh)].
      * apply note_sender_fold in Hin as [Hin | (h & Hh)]; [now left | right].
        exists md, h. split; [apply elem_of_cons; now left | exact Hh].
      * right. exists md', h. split; [apply elem_of_cons; now right | exact Hh].
      * intros [Hin | (md' & h & Hmd' & Hh)]; apply Hu.
        -- left. apply note_sender_fold. now left.
        -- apply elem_of_cons in Hmd' as [-> | Hmd'].
           ++ left. apply note_sender_fold. right. now exists h.
           ++ right. now exists md', h.
Qed.

(** X1: when the sender extractor returns, its set holds exactly the
    values of the [From] headers of the messages the provider holds under
    the listed identifiers; a value met twice is there once, and headers
    of any other name are ignored. *)
Theorem X1_unique_senders (messages : option (list MsgRef))
  (u : gset string) (w w' : World) :
  Common.get_unique_senders messages w = (Done u, w') ->
  exists l mds,
    messages = Some l /\
    Forall2 (fetched (server w)) l mds /\
    forall s, s ∈ u <-> exists md, md ∈ mds /\ s ∈ from_values md.
Proof.
  destruct messages as [l|]; simpl; [|intros H; inversion H].
  intros H.
  destruct (senders_loop_done _ _ _ _ _ H) as (mds & ids & Hall & _ & _ & _ & _ & _ & _ & Hu).
  exists l, mds. split; [reflexivity |]. split; [assumption |].
  intros s. rewrite Hu. unfold from_values. split.
  - intros [Hin | (md & h & Hmd & Hh & Hn & Hv)]; [now apply elem_of_empty in Hin |].
    exists md. split; [assumption |]. apply list_elem_of_fmap.
    exists h. split; [now symmetry |]. apply list_elem_of_filter. now split.
  - intros (md & Hmd & Hin). right.
    apply list_elem_of_fmap in Hin as (h & -> & Hh).
    apply list_elem_of_filter in Hh as [Hn Hh]. now exists md, h.
Qed.

Lemma X1_unique_senders_witness :
  exists l mds,
    Some [ref "m1"; ref "m2"; ref "m1"] = Some l /\
    Forall2 (fetched (server (start (two_pages None) []))) l mds /\
    forall s, s ∈ ({[ "Alice <a@x.com>"; "Bob <b@y.com>" ]} : gset string) <->
              exists md, md ∈ mds /\ s ∈ from_values md.
Proof.
  eapply (X1_unique_senders (Some [ref "m1"; ref "m2"; ref "m1"])
            {[ "Alice <a@x.com>"; "Bob <b@y.com>" ]}
            (start (two_pages None) [])).
  vm_compute. reflexivity.
Defined.

(** X2: a completed run of the sender extractor has sent one fetch for
    each listed message, in the order of the list and again for a
    reference that is listed twice, and nothing else; it has read no
    input, written no output, and left the token file and the provider's
    messages as they were. *)
Theorem X2_one_fetch_per_message (messages : option (list MsgRef))
  (u : gset string) (w w' : World) :
  Common.get_unique_senders messages w = (Done u, w') ->
  exists l ids,
    messages = Some l /\ ids_of l ids /\
    sent w' = sent w ++ (MessagesGet <$> ids) /\
    stdin w' = stdin w /\ stdout w' = stdout w /\
    token_json w' = token_json w /\
    store (server w') = store (server w).
Proof.
  destruct messages as [l|]; simpl; [|intros H; inversion H].
  intros H.
  destruct (senders_loop_done _ _ _ _ _ H)
    as (mds & ids & _ & Hids & Hs & Hi & Ho & Ht & Hst & _).
  exists l, ids. repeat split; assumption.
Qed.

Lemma X2_one_fetch_per_message_witness :
  exists l ids,
    Some [ref "m2"; ref "m1"; ref "m2"] = Some l /\ ids_of l ids /\
    sent (snd (Common.get_unique_senders (Some [ref "m2"; ref "m1"; ref "m2"])
                 (start (two_pages None) ["y"]))) =
      sent (start (two_pages None) ["y"]) ++ (MessagesGet <$> ids) /\
    stdin (snd (Common.get_unique_senders (Some [ref "m2"; ref "m1"; ref "m2"])
                  (start (two_pages None) ["y"]))) =
      stdin (start (two_pages None) ["y"]) /\
    stdout (snd (Common.get_unique_senders (Some [ref "m2"; ref "m1"; ref "m2"])
                   (start (two_pages None) ["y"]))) =
      stdout (start (two_pages None) ["y"]) /\
    token_json (snd (Common.get_unique_senders
                       (Some [ref "m2"; ref "m1"; ref "m2"])
                       (start (two_pages None) ["y"]))) =
      token_json (start (two_pages None) ["y"]) /\
    store (server (snd (Common.get_unique_senders
                          (Some [ref "m2"; ref "m1"; ref "m2"])
                          (start (two_pages None) ["y"])))) =
      store (server (start (two_pages None) ["y"])).
Proof.
  eapply (X2_one_fetch_per_message (Some [ref "m2"; ref "m1"; ref "m2"])
            _ (start (two_pages None) ["y"])).
  vm_compute. reflexivity.
Defined.

Lemma senders_loop_app (l1 l2 : list MsgRef) (u : gset string) (w : World) :
  Common.senders_loop (l1 ++ l2) u w =
  bind (Common.senders_loop l1 u) (Common.senders_loop l2) w.
Proof.
  revert u w; induction l1 as [|mess l1 IH]; intros u w; simpl.
  - reflexivity.
  - unfold bind. destruct (getitem mess "id" w) as [[id | e |] w0];
      try reflexivity.
    destruct (messages_get id w0) as [[md | e |] w1]; try reflexivity.
    rewrite IH. reflexivity.
Qed.

Lemma messages_get_missing (id : string) (w : World) :
  store (server w) !! id = None ->
  fst (messages_get id w) = Raised HttpError.
Proof.
  intros Hmiss. unfold messages_get, bind, execute, serve.
  destruct (faults (server w)) as [|[] fs]; simpl; rewrite ?Hmiss; reflexivity.
Qed.

(** X3: how the sender extractor fails.  Over an absent list it raises
    [TypeError] at once.  At the first reference without an [id] entry it
    raises [KeyError], after the fetches of the references before it and
    with no request for that reference or a later one.  At a reference
    whose message the provider does not hold it raises [HttpError], that
    fetch being the last request.  In each case the senders found so far
    are lost with the exception. *)
Theorem X3_unique_senders_errors (good rest : list MsgRef) (bad : MsgRef)
  (w w1 : World) (found : gset string) :
  Common.get_unique_senders None w = (Raised TypeError, w) /\
  (Common.get_unique_senders (Some good) w = (Done found, w1) ->
   (bad !! "id" = None ->
    Common.get_unique_senders (Some (good ++ bad :: rest)) w =
    (Raised KeyError, w1)) /\
   (forall id,
      bad !! "id" = Some id -> store (server w1) !! id = None ->
      fst (Common.get_unique_senders (Some (good ++ bad :: rest)) w) =
        Raised HttpError /\
      sent (snd (Common.get_unique_senders (Some (good ++ bad :: rest)) w)) =
        sent w1 ++ [MessagesGet id])).
Proof.
  split; [reflexivity |]. simpl. intros Hgood. split.
  - intros Hid. rewrite senders_loop_app. unfold bind. rewrite Hgood.
    simpl. unfold bind, getitem. now rewrite Hid.
  - intros id Hid Hmiss.
    pose proof (messages_get_missing id w1 Hmiss) as Hraise.
    pose proof (messages_get_sent id w1) as (Hs & _).
    destruct (messages_get id w1) as [r w2] eqn:Hget. simpl in Hraise, Hs.
    subst r.
    rewrite senders_loop_app. unfold bind. rewrite Hgood. simpl.
    unfold bind, getitem. rewrite Hid. simpl. rewrite Hget. simpl.
    now split.
Qed.

Lemma X3_unique_senders_errors_witness :
  Common.get_unique_senders (Some ([ref "m1"] ++ ∅ :: [ref "m2"]))
    (start (two_pages None) []) =
  (Raised KeyError,
   snd (Common.get_unique_senders (Some [ref "m1"]) (start (two_pages None) []))) /\
  fst (Common.get_unique_senders (Some ([ref "m1"] ++ ref "gone" :: [ref "m2"]))
         (start (two_pages None) [])) = Raised HttpError /\
  sent (snd (Common.get_unique_senders
               (Some ([ref "m1"] ++ ref "gone" :: [ref "m2"]))
               (start (two_pages None) []))) =
  sent (snd (Common.get_unique_senders (Some [ref "m1"])
               (start (two_pages None) []))) ++ [MessagesGet "gone"].
Proof.
  assert (Hgood :
    Common.get_unique_senders (Some [ref "m1"]) (start (two_pages None) []) =
    (Done {[ "Alice <a@x.com>" ]},
     snd (Common.get_unique_senders (Some [ref "m1"])
            (start (two_pages None) [])))).
  { vm_compute. reflexivity. }
  split.
  - apply (proj1 (proj2 (X3_unique_senders_errors [ref "m1"] [ref "m2"] ∅
                           (start (two_pages None) []) _ _) Hgood)).
    reflexivity.
  - apply (proj2 (proj2 (X3_unique_senders_errors [ref "m1"] [ref "m2"]
                           (ref "gone") (start (two_pages None) []) _ _) Hgood)
             "gone").
    + reflexivity.
    + vm_compute. reflexivity.
Defined.

(** ** The interactive marker *)

Lemma ask_done (item : string) (lines out rest out' : list string)
  (mark : string) :
  Common.ask item lines out = (Done mark, rest, out') ->
  Common.valid_mark mark = true /\
  exists used, lines = used ++ rest /\ 1 <= length used.
Proof.
  revert out; induction lines as [|line lines IH]; intros out; simpl.
  - intros H; inversion H.
  - destruct (Common.valid_mark (Py.lower line)) eqn:Hv.
    + intros H; inversion H; subst. split; [assumption |].
      exists [line]. split; [reflexivity | simpl; lia].
    + intros H. destruct (IH _ H) as (Hm & used & -> & Hlen).
      split; [assumption |]. exists (line :: used).
      split; [reflexivity | simpl; lia].
Qed.

Lemma mark_loop_done (items marked result : list string) (w w' : World) :
  Common.mark_loop items marked w = (Done result, w') ->
  exists chosen used,
    result = marked ++ chosen /\ sublist chosen items /\
    stdin w = used ++ stdin w' /\ length items <= length used /\
    server w' = server w /\ sent w' = sent w /\ token_json w' = token_json w.
Proof.
  revert marked w; induction items as [|item items IH]; intros marked w; simpl.
  - intros H; inversion H; subst. exists [], []. rewrite app_nil_r.
    repeat split; simpl; try reflexivity; try lia; try constructor.
  - unfold bind, Common.read_mark.
    destruct (Common.ask item (stdin w) (stdout w)) as [[r i] o] eqn:Hask.
    destruct r as [mark | e |]; try (intros H; inversion H; fail).
    destruct (ask_done _ _ _ _ _ _ Hask) as (_ & used1 & Hused1 & Hlen1).
    intros H. destruct (IH _ _ H)
      as (chosen & used & -> & Hsub & Hin & Hlen & Hsrv & Hsent & Htok).
    simpl in Hin, Hsrv, Hsent, Htok.
    destruct (String.eqb mark "y").
    + exists (item :: chosen), (used1 ++ used).
      rewrite <- app_assoc. repeat split; try assumption.
      * now apply sublist_skip.
      * rewrite Hused1, Hin. now rewrite app_assoc.
      * rewrite length_app. simpl. lia.
    + exists chosen, (used1 ++ used). repeat split; try assumption.
      * now apply sublist_cons.
      * rewrite Hused1, Hin. now rewrite app_assoc.
      * rewrite length_app. simpl. lia.
Qed.

(** X4: when the marker returns, the marked senders are senders it was
    given, in the order given and none more often than given; it has read
    at least one line for every sender, and has sent nothing to the
    provider nor touched the token file. *)
Theorem X4_marked_is_selection (items result : list string) (w w' : World) :
  Common.mark_senders items w = (Done result, w') ->
  sublist result items /\
  (exists used, stdin w = used ++ stdin w' /\ length items <= length used) /\
  server w' = server w /\ sent w' = sent w /\ token_json w' = token_json w.
Proof.
  intros H. destruct (mark_loop_done _ _ _ _ _ H)
    as (chosen & used & -> & Hsub & Hin & Hlen & Hsrv & Hsent & Htok).
  simpl. repeat split; try assumption. now exists used.
Qed.

Lemma X4_marked_is_selection_witness :
  sublist ["Alice"; "Carol"] ["Alice"; "Bob"; "Carol"] /\
  (exists used,
     stdin (start empty_mailbox ["y"; "?"; "n"; "Y"; "left"]) =
     used ++ stdin (snd (Common.mark_senders ["Alice"; "Bob"; "Carol"]
                           (start empty_mailbox ["y"; "?"; "n"; "Y"; "left"]))) /\
     length ["Alice"; "Bob"; "Carol"] <= length used) /\
  server (snd (Common.mark_senders ["Alice"; "Bob"; "Carol"]
                 (start empty_mailbox ["y"; "?"; "n"; "Y"; "left"]))) =
    server (start empty_mailbox ["y"; "?"; "n"; "Y"; "left"]) /\
  sent (snd (Common.mark_senders ["Alice"; "Bob"; "Carol"]
               (start empty_mailbox ["y"; "?"; "n"; "Y"; "left"]))) =
    sent (start empty_mailbox ["y"; "?"; "n"; "Y"; "left"]) /\
  token_json (snd (Common.mark_senders ["Alice"; "Bob"; "Carol"]
                     (start empty_mailbox ["y"; "?"; "n"; "Y"; "left"]))) =
    token_json (start empty_mailbox ["y"; "?"; "n"; "Y"; "left"]).
Proof.
  apply (X4_marked_is_selection ["Alice"; "Bob"; "Carol"] ["Alice"; "Carol"]
           (start empty_mailbox ["y"; "?"; "n"; "Y"; "left"])).
  vm_compute. reflexivity.
Defined.

Lemma ask_valid (item line : string) (rest out : list string) :
  says_yes line \/ says_no line ->
  Common.ask item (line :: rest) out =
  (Done (Py.lower line), rest, out ++ [Common.prompt item]).
Proof.
  intros H. simpl. now rewrite (proj2 (valid_mark_spec line) H).
Qed.

Lemma mark_loop_clean (items answers more marked : list string) (w : World) :
  length answers = length items ->
  Forall (fun a => says_yes a \/ says_no a) answers ->
  stdin w = answers ++ more ->
  exists w',
    Common.mark_loop items marked w =
      (Done (marked ++ marked_by items answers), w') /\
    stdin w' = more /\
    stdout w' = stdout w ++ (Common.prompt <$> items).
Proof.
  revert answers marked w; induction items as [|item items IH];
    intros answers marked w Hlen Hall Hin.
  - destruct answers; [|discriminate Hlen]. simpl in *.
    exists w. rewrite !app_nil_r. now repeat split.
  - destruct answers as [|a answers]; [discriminate Hlen |].
    injection Hlen as Hlen. apply Forall_cons in Hall as [Ha Hall].
    simpl. unfold bind, Common.read_mark. rewrite Hin.
    change ((a :: answers) ++ more) with (a :: (answers ++ more)).
    rewrite (ask_valid item a _ _ Ha).
    destruct (IH answers
                (if String.eqb (Py.lower a) "y" then marked ++ [item] else marked)
                (with_terminal (answers ++ more)
                   (stdout w ++ [Common.prompt item]) w) Hlen Hall eq_refl)
      as (w' & Hrun & Hin' & Hout').
    exists w'. rewrite Hrun. simpl in Hout'. split; [|split].
    + destruct (String.eqb (Py.lower a) "y"); [|reflexivity].
      now rewrite <- app_assoc.
    + assumption.
    + rewrite Hout', <- app_assoc. reflexivity.
Qed.

(** X5: when the operator answers each prompt at once with a yes or a
    no, in either case of the letter, the marker returns the senders
    answered with a yes, in order; one line is read and one prompt written
    for every sender, and what follows on the terminal is left unread. *)
Theorem X5_clean_answers (items answers more : list string) (w : World) :
  length answers = length items ->
  Forall (fun a => says_yes a \/ says_no a) answers ->
  stdin w = answers ++ more ->
  exists w',
    Common.mark_senders items w = (Done (marked_by items answers), w') /\
    stdin w' = more /\
    stdout w' = stdout w ++ (Common.prompt <$> items).
Proof.
  intros Hlen Hall Hin.
  exact (mark_loop_clean items answers more [] w Hlen Hall Hin).
Qed.

Lemma X5_clean_answers_witness :
  exists w',
    Common.mark_senders ["Alice"; "Bob"; "Carol"]
      (start empty_mailbox ["Y"; "n"; "y"; "left"]) =
      (Done (marked_by ["Alice"; "Bob"; "Carol"] ["Y"; "n"; "y"]), w') /\
    stdin w' = ["left"] /\
    stdout w' =
      stdout (start empty_mailbox ["Y"; "n"; "y"; "left"]) ++
      (Common.prompt <$> ["Alice"; "Bob"; "Carol"]).
Proof.
  apply (X5_clean_answers ["Alice"; "Bob"; "Carol"] ["Y"; "n"; "y"] ["left"]
           (start empty_mailbox ["Y"; "n"; "y"; "left"])).
  - reflexivity.
  - apply Forall_cons. split; [left; now right |].
    apply Forall_cons. split; [right; now left |].
    apply Forall_cons. split; [left; now left |]. constructor.
  - reflexivity.
Defined.

(** ** The address extractor *)

Lemma search_some (text g : string) :
  Py.re_search_brackets text = Some g ->
  exists pre post,
    text = pre +:+ String Py.LT (g +:+ String Py.GT post) /\
    occurs Py.GT g = false /\ occurs Py.LF g = false.
Proof.
  induction text as [|c text IH]; simpl; [discriminate |].
  assert (Htail : Py.re_search_brackets text = Some g ->
            exists pre post,
              String c text = pre +:+ String Py.LT (g +:+ String Py.GT post) /\
              occurs Py.GT g = false /\ occurs Py.LF g = false).
  { intros H. destruct (IH H) as (pre & post & -> & Hg).
    now exists (String c pre), post. }
  destruct (Ascii.eqb c Py.LT) eqn:Hc; [|exact Htail].
  apply Ascii.eqb_eq in Hc as ->.
  destruct (Py.lazy_group text) as [g'|] eqn:Hg; [|exact Htail].
  intros H; injection H as ->.
  destruct (lazy_group_some _ _ Hg) as (post & -> & H1 & H2).
  now exists "", post.
Qed.

(** X6: every address the extractor returns stood between a [<] and a
    [>] of one of the senders, and contains neither a [>] nor a line feed;
    no sender yields more than one address. *)
Theorem X6_extracted_addresses (senders : list string) :
  length (Common.extract_emails senders) <= length senders /\
  forall email, email ∈ Common.extract_emails senders ->
    occurs Py.GT email = false /\ occurs Py.LF email = false /\
    exists text pre post,
      text ∈ senders /\
      text = pre +:+ String Py.LT (email +:+ String Py.GT post).
Proof.
  rewrite extract_emails_omap. split.
  - induction senders as [|t l IH]; [apply le_n |].
    change (omap Py.re_search_brackets (t :: l))
      with (match Py.re_search_brackets t with
            | Some e => e :: omap Py.re_search_brackets l
            | None => omap Py.re_search_brackets l
            end).
    destruct (Py.re_search_brackets t); simpl; lia.
  - intros email Hin. apply list_elem_of_omap in Hin as (text & Hin & Hs).
    destruct (search_some _ _ Hs) as (pre & post & Htext & Hgt & Hlf).
    split; [assumption |]. split; [assumption |]. now exists text, pre, post.
Qed.

Lemma lazy_group_succeeds (g post : string) :
  occurs Py.LF g = false ->
  is_Some (Py.lazy_group (g +:+ String Py.GT post)).
Proof.
  induction g as [|c g IH]; simpl; intros Hlf; [now eexists |].
  apply orb_false_elim in Hlf as [Hc Hlf].
  destruct (Ascii.eqb c Py.GT); [now eexists |].
  rewrite Hc. destruct (IH Hlf) as [g' ->]. now eexists.
Qed.

Lemma search_succeeds (pre r : string) :
  is_Some (Py.lazy_group r) ->
  is_Some (Py.re_search_brackets (pre +:+ String Py.LT r)).
Proof.
  intros [g Hg]. induction pre as [|c pre IH]; simpl.
  - rewrite Hg. now eexists.
  - destruct (Ascii.eqb c Py.LT); [|exact IH].
    destruct (Py.lazy_group (pre +:+ String Py.LT r)); [now eexists | exact IH].
Qed.

(** X7: a sender yields no address exactly when none of its [<] is
    followed by a [>] without a line feed in between; in particular a
    single line without a bracket pair, and a pair split over two lines,
    are both dropped. *)
Theorem X7_dropped_senders (text : string) :
  Common.extract_emails [text] = [] <->
  ~ exists pre g post,
      text = pre +:+ String Py.LT (g +:+ String Py.GT post) /\
      occurs Py.LF g = false.
Proof.
  rewrite extract_emails_omap. simpl. split.
  - intros Hnone (pre & g & post & -> & Hlf).
    destruct (search_succeeds pre _ (lazy_group_succeeds g post Hlf)) as [g' Hg'].
    rewrite Hg' in Hnone. discriminate Hnone.
  - intros Hno. destruct (Py.re_search_brackets text) as [g|] eqn:Hs;
      [|reflexivity].
    exfalso. apply Hno.
    destruct (search_some _ _ Hs) as (pre & post & Htext & _ & Hlf).
    now exists pre, g, post.
Qed.

Lemma X6_extracted_addresses_witness :
  occurs Py.GT "a@x.com" = false /\ occurs Py.LF "a@x.com" = false /\
  exists text pre post,
    text ∈ ["Alice <a@x.com>"; "none"] /\
    text = pre +:+ String Py.LT ("a@x.com" +:+ String Py.GT post).
Proof.
  apply (proj2 (X6_extracted_addresses ["Alice <a@x.com>"; "none"]) "a@x.com").
  change ("a@x.com" ∈ ["a@x.com"]). apply elem_of_cons. now left.
Defined.

Lemma X7_dropped_senders_witness :
  Common.extract_emails ["no-brackets-here"] = [].
Proof.
  apply (proj2 (X7_dropped_senders "no-brackets-here")).
  intros (pre & g & post & H & _).
  assert (Hpair : has_bracket_pair "no-brackets-here") by now exists pre, g, post.
  apply bracket_pair_occurs in Hpair. vm_compute in Hpair. discriminate Hpair.
Defined.

(** ** The membership check against the existing filters *)

(** X8: when every existing filter has a [from] criterion, the result is
    the candidates that are a substring of no filter's [from] criterion,
    in the order of the candidate list and with its repetitions, joined
    with [" OR "]. *)
Theorem X8_unfiltered_addresses (fs : list Filter) (emails : list string)
  (w : World) :
  filters (server w) = Some fs ->
  head (faults (server w)) <> Some true ->
  Forall (fun f => is_Some (c_from (criteria f))) fs ->
  fst (CreateFilter.identify_unfiltered_emails emails w) =
  Done (Py.join " OR "
          (filter (fun e => Forall (fun f => ~ covers e f) fs) emails)).
Proof.
  intros Hfs Hfault Hall.
  pose proof (unfiltered_when_all_from fs emails w Hfs Hfault Hall) as H.
  unfold CreateFilter.identify_unfiltered_emails, bind.
  destruct (CreateFilter.unfiltered_list emails w) as [[unf | e |] w1];
    simpl in *; congruence.
Qed.

Lemma X8_unfiltered_addresses_witness :
  fst (CreateFilter.identify_unfiltered_emails
         ["c@z.com"; "a@x.com"; "d@z.com"; "c@z.com"]
         (start (two_pages (Some [from_filter "a@x.com OR b@y.com"])) [])) =
  Done (Py.join " OR "
          (filter (fun e => Forall (fun f => ~ covers e f)
                              [from_filter "a@x.com OR b@y.com"])
             ["c@z.com"; "a@x.com"; "d@z.com"; "c@z.com"])).
Proof.
  apply X8_unfiltered_addresses.
  - reflexivity.
  - discriminate.
  - repeat constructor. now eexists.
Defined.

Lemma covered_key_error (e : string) (pre post : list Filter) (f : Filter) :
  Forall (fun g => exists from,
            c_from (criteria g) = Some from /\ Py.contains e from = false) pre ->
  c_from (criteria f) = None ->
  CreateFilter.covered e (pre ++ f :: post) = Raised KeyError.
Proof.
  intros Hpre Hf. induction Hpre as [|g pre (from & Hg & Hc) _ IH]; simpl.
  - now rewrite Hf.
  - now rewrite Hg, Hc.
Qed.

(** X9: a filter without a [from] criterion stops the check with a
    [KeyError] as soon as a candidate reaches it, that is when no filter
    before it contains the candidate; with no candidate at all no filter is
    looked at and the result is the empty string. *)
Theorem X9_filter_without_sender (pre post : list Filter) (f : Filter)
  (e : string) (emails : list string) (w : World) :
  filters (server w) = Some (pre ++ f :: post) ->
  head (faults (server w)) <> Some true ->
  c_from (criteria f) = None ->
  (Forall (fun g => exists from,
             c_from (criteria g) = Some from /\ Py.contains e from = false) pre ->
   fst (CreateFilter.identify_unfiltered_emails (e :: emails) w) =
     Raised KeyError) /\
  fst (CreateFilter.identify_unfiltered_emails [] w) = Done "".
Proof.
  intros Hfs Hfault Hf.
  assert (Hlist : forall l,
            fst (CreateFilter.unfiltered_list l w) =
            match CreateFilter.unfiltered_loop (pre ++ f :: post) l [] with
            | Done u => Done u
            | Raised x => Raised x
            | Running => Running
            end).
  { intros l.
    unfold CreateFilter.unfiltered_list, filters_list, bind, execute, serve.
    destruct (faults (server w)) as [|[] fl]; simpl in *; try congruence;
      rewrite Hfs; simpl;
      destruct (CreateFilter.unfiltered_loop (pre ++ f :: post) l []);
      reflexivity. }
  split.
  - intros Hpre. specialize (Hlist (e :: emails)). simpl in Hlist.
    rewrite (covered_key_error e pre post f Hpre Hf) in Hlist.
    unfold CreateFilter.identify_unfiltered_emails, bind.
    destruct (CreateFilter.unfiltered_list (e :: emails) w) as [[u | x |] w1];
      simpl in *; congruence.
  - specialize (Hlist []). simpl in Hlist.
    unfold CreateFilter.identify_unfiltered_emails, bind.
    destruct (CreateFilter.unfiltered_list [] w) as [[u | x |] w1];
      simpl in *; try discriminate Hlist. now injection Hlist as ->.
Qed.

Lemma X9_filter_without_sender_witness :
  fst (CreateFilter.identify_unfiltered_emails ("c@z.com" :: ["a@x.com"])
         (start (two_pages (Some ([from_filter "a@x.com"] ++
                                  subject_filter :: [from_filter "c@z.com"])))
            [])) = Raised KeyError /\
  fst (CreateFilter.identify_unfiltered_emails []
         (start (two_pages (Some ([from_filter "a@x.com"] ++
                                  subject_filter :: [from_filter "c@z.com"])))
            [])) = Done "".
Proof.
  destruct (X9_filter_without_sender [from_filter "a@x.com"]
              [from_filter "c@z.com"] subject_filter "c@z.com" ["a@x.com"]
              (start (two_pages (Some ([from_filter "a@x.com"] ++
                                       subject_filter :: [from_filter "c@z.com"])))
                 []))
    as [H1 H2]; try reflexivity; try discriminate.
  split; [apply H1 | exact H2].
  repeat constructor. exists "a@x.com". split; reflexivity.
Defined.

Lemma unfiltered_list_footprint (emails : list string) (w : World) :
  sent (snd (CreateFilter.unfiltered_list emails w)) = sent w ++ [FiltersList] /\
  filters (server (snd (CreateFilter.unfiltered_list emails w))) =
    filters (server w) /\
  mailbox (server (snd (CreateFilter.unfiltered_list emails w))) =
    mailbox (server w) /\
  stdin (snd (CreateFilter.unfiltered_list emails w)) = stdin w /\
  token_json (snd (CreateFilter.unfiltered_list emails w)) = token_json w.
Proof.
  unfold CreateFilter.unfiltered_list, filters_list, bind, execute, serve.
  destruct (faults (server w)) as [|[] fl]; simpl;
    try (repeat split; reflexivity);
    (destruct (filters (server w)) as [fs|] eqn:Hfs; simpl;
     [destruct (CreateFilter.unfiltered_loop fs emails []) |];
     simpl; repeat split; simpl; congruence).
Qed.

(** X10: whatever its outcome, the membership check sends one request,
    the listing of the filters, and changes neither the filters nor the
    messages of the provider; it reads nothing from the terminal and
    leaves the token file alone. *)
Theorem X10_identify_reads_only (emails : list string) (w : World) :
  sent (snd (CreateFilter.identify_unfiltered_emails emails w)) =
    sent w ++ [FiltersList] /\
  filters (server (snd (CreateFilter.identify_unfiltered_emails emails w))) =
    filters (server w) /\
  mailbox (server (snd (CreateFilter.identify_unfiltered_emails emails w))) =
    mailbox (server w) /\
  stdin (snd (CreateFilter.identify_unfiltered_emails emails w)) = stdin w /\
  token_json (snd (CreateFilter.identify_unfiltered_emails emails w)) =
    token_json w.
Proof.
  pose proof (unfiltered_list_footprint emails w) as H.
  unfold CreateFilter.identify_unfiltered_emails, bind.
  destruct (CreateFilter.unfiltered_list emails w) as [[unf | e |] w1];
    exact H.
Qed.

(** ** What the scripts leave behind *)

Lemma sends_create_main (P : Request -> Prop) (budget : nat) :
  (forall q, is_deletion q = false -> P q) ->
  sends P (CreateFilter.main budget).
Proof.
  intros HP. unfold CreateFilter.main, CreateFilter.main_try.
  apply sends_try; [|apply sends_print].
  apply sends_bind; [apply sends_messages_list; now apply HP | intros r].
  apply sends_bind.
  { apply sends_paging_loop; [intros id|]; now apply HP. }
  intros u. apply sends_bind; [|intros f; apply sends_print].
  apply sends_filters_create. now apply HP.
Qed.

(** X11: no run of the filter script, however it ends, sends a deletion
    request, changes the provider's messages or their listing, or touches
    the token file. *)
Theorem X11_filter_script_frame (budget : nat) (w : World) :
  (exists new,
     sent (snd (CreateFilter.main budget w)) = sent w ++ new /\
     Forall (fun q => is_deletion q = false) new) /\
  mailbox (server (snd (CreateFilter.main budget w))) = mailbox (server w) /\
  token_json (snd (CreateFilter.main budget w)) = token_json w.
Proof.
  destruct (sends_create_main (fun q => is_deletion q = false) budget
              (fun q H => H) w) as (new & Hs & Hp & Hv & _ & Ht).
  split; [now exists new |]. split; [|exact Ht].
  rewrite Hv. now apply serve_all_mailbox.
Qed.

(** ** How the scripts can end *)

Section Outcomes.
Context (E : Exn -> Prop) (R : Prop).

Lemma outcomes_ret {A} (a : A) : outcomes E R (ret a).
Proof. intros w. exact I. Qed.

Lemma outcomes_raise {A} (e : Exn) : E e -> outcomes E R (@raise A e).
Proof. intros He w. exact He. Qed.

Lemma outcomes_bind {A B} (m : M A) (k : A -> M B) :
  outcomes E R m -> (forall a, outcomes E R (k a)) -> outcomes E R (bind m k).
Proof.
  intros Hm Hk w. unfold bind. specialize (Hm w).
  destruct (m w) as [[a | e |] w1]; simpl in *; try assumption. apply Hk.
Qed.

Lemma outcomes_execute (q : Request) : E HttpError -> outcomes E R (execute q).
Proof.
  intros He w. unfold execute.
  destruct (serve (server w) q) as [s [r |]]; simpl; [exact I | exact He].
Qed.

Lemma outcomes_print (line : string) : outcomes E R (print line).
Proof. intros w. exact I. Qed.

Lemma outcomes_iterate (s : gset string) : outcomes E R (iterate s).
Proof. intros w. exact I. Qed.

Lemma outcomes_getitem (d : MsgRef) (key : string) :
  E KeyError -> outcomes E R (getitem d key).
Proof.
  intros He. unfold getitem.
  destruct (d !! key); [apply outcomes_ret | now apply outcomes_raise].
Qed.

Lemma ask_outcome (item : string) (lines out : list string) :
  match fst (fst (Common.ask item lines out)) with
  | Done _ => True
  | Raised e => e = EOFError
  | Running => False
  end.
Proof.
  revert out; induction lines as [|line lines IH]; intros out; simpl.
  - reflexivity.
  - destruct (Common.valid_mark (Py.lower line)); [exact I | apply IH].
Qed.

Lemma outcomes_read_mark (item : string) :
  E EOFError -> outcomes E R (Common.read_mark item).
Proof.
  intros He w. unfold Common.read_mark.
  pose proof (ask_outcome item (stdin w) (stdout w)) as H.
  destruct (Common.ask item (stdin w) (stdout w)) as [[[a | e |] i] o];
    simpl in *; [exact I | now subst | contradiction].
Qed.

Lemma outcomes_mark_loop (items marked : list string) :
  E EOFError -> outcomes E R (Common.mark_loop items marked).
Proof.
  intros He. revert marked; induction items as [|item rest IH];
    intros marked; simpl.
  - apply outcomes_ret.
  - apply outcomes_bind; [now apply outcomes_read_mark | intros mark; apply IH].
Qed.

Hypothesis E_http : E HttpError.
Hypothesis E_type : E TypeError.
Hypothesis E_key : E KeyError.

Lemma outcomes_messages_list (n : option nat) (t : option string) :
  outcomes E R (messages_list n t).
Proof.
  unfold messages_list. apply outcomes_bind; [now apply outcomes_execute |].
  intros []; first [apply outcomes_ret | now apply outcomes_raise].
Qed.

Lemma outcomes_messages_get (id : string) : outcomes E R (messages_get id).
Proof.
  unfold messages_get. apply outcomes_bind; [now apply outcomes_execute |].
  intros []; first [apply outcomes_ret | now apply outcomes_raise].
Qed.

Lemma outcomes_filters_list : outcomes E R filters_list.
Proof.
  unfold filters_list. apply outcomes_bind; [now apply outcomes_execute |].
  intros []; first [apply outcomes_ret | now apply outcomes_raise].
Qed.

Lemma outcomes_filters_create (body : Filter) :
  outcomes E R (filters_create body).
Proof.
  unfold filters_create. apply outcomes_bind; [now apply outcomes_execute |].
  intros []; first [apply outcomes_ret | now apply outcomes_raise].
Qed.

Lemma outcomes_senders_loop (l : list MsgRef) (u : gset string) :
  outcomes E R (Common.senders_loop l u).
Proof.
  revert u; induction l as [|mess rest IH]; intros u; simpl.
  - apply outcomes_ret.
  - apply outcomes_bind; [now apply outcomes_getitem | intros id].
    apply outcomes_bind; [apply outcomes_messages_get | intros md; apply IH].
Qed.

Lemma outcomes_get_unique_senders (messages : option (list MsgRef)) :
  outcomes E R (Common.get_unique_senders messages).
Proof.
  destruct messages; simpl;
    [apply outcomes_senders_loop | now apply outcomes_raise].
Qed.

Lemma outcomes_ids_loop (l : list MsgRef) (senders acc : list string) :
  outcomes E R (DeleteMessages.ids_loop l senders acc).
Proof.
  revert acc; induction l as [|mess rest IH]; intros acc; simpl.
  - apply outcomes_ret.
  - apply outcomes_bind; [now apply outcomes_getitem | intros id].
    apply outcomes_bind; [apply outcomes_messages_get | intros md; apply IH].
Qed.

Lemma outcomes_get_marked_senders_msg_id (messages : option (list MsgRef))
  (senders : list string) :
  outcomes E R (DeleteMessages.get_marked_senders_msg_id messages senders).
Proof.
  destruct messages; simpl;
    [apply outcomes_ids_loop | now apply outcomes_raise].
Qed.

Lemma covered_outcome (email : string) (fs : list Filter) :
  match CreateFilter.covered email fs with
  | Done _ => True
  | Raised e => e = KeyError
  | Running => False
  end.
Proof.
  induction fs as [|f fs IH]; simpl; [exact I |].
  destruct (c_from (criteria f)) as [from|]; [|reflexivity].
  destruct (Py.contains email from); [exact I | exact IH].
Qed.

Lemma unfiltered_loop_outcome (fs : list Filter) (emails acc : list string) :
  match CreateFilter.unfiltered_loop fs emails acc with
  | Done _ => True
  | Raised e => e = KeyError
  | Running => False
  end.
Proof.
  revert acc; induction emails as [|e emails IH]; intros acc; simpl;
    [exact I |].
  pose proof (covered_outcome e fs) as H.
  destruct (CreateFilter.covered e fs) as [[] | x |];
    [apply IH | apply IH | exact H | exact H].
Qed.

Lemma outcomes_unfiltered_list (emails : list string) :
  outcomes E R (CreateFilter.unfiltered_list emails).
Proof.
  unfold CreateFilter.unfiltered_list.
  apply outcomes_bind; [apply outcomes_filters_list | intros [fs|]].
  - pose proof (unfiltered_loop_outcome fs emails []) as H.
    destruct (CreateFilter.unfiltered_loop fs emails []) as [u | x |].
    + apply outcomes_ret.
    + subst x. now apply outcomes_raise.
    + contradiction.
  - apply outcomes_bind; [apply outcomes_print | intros _; apply outcomes_ret].
Qed.

Hypothesis E_eof : E EOFError.

Lemma outcomes_before_executor : outcomes E R before_executor.
Proof.
  unfold before_executor, Common.mark_senders.
  apply outcomes_bind; [apply outcomes_messages_list | intros r].
  apply outcomes_bind; [apply outcomes_get_unique_senders | intros u].
  apply outcomes_bind; [apply outcomes_iterate | intros order].
  apply outcomes_bind; [now apply outcomes_mark_loop | intros senders].
  apply outcomes_ret.
Qed.

Hypothesis E_index : E IndexError.

Lemma outcomes_page_step (messages : option (list MsgRef)) :
  outcomes E R (CreateFilter.page_step messages).
Proof.
  unfold CreateFilter.page_step, CreateFilter.identify_unfiltered_emails,
    Common.mark_senders.
  apply outcomes_bind; [apply outcomes_get_unique_senders | intros u].
  apply outcomes_bind; [apply outcomes_iterate | intros order].
  apply outcomes_bind; [now apply outcomes_mark_loop | intros senders].
  apply outcomes_bind.
  { apply outcomes_bind; [apply outcomes_unfiltered_list |].
    intros unf. apply outcomes_ret. }
  intros unf. apply outcomes_bind; [|intros tok; apply outcomes_ret].
  unfold CreateFilter.last_page_token.
  destruct messages as [l|]; [|now apply outcomes_raise].
  destruct (last l); [apply outcomes_ret | now apply outcomes_raise].
Qed.

End Outcomes.

Lemma outcomes_paging_loop (E : Exn -> Prop) (budget : nat)
  (messages : option (list MsgRef)) (acc : option string) :
  E HttpError -> E TypeError -> E KeyError -> E EOFError -> E IndexError ->
  outcomes E True (CreateFilter.paging_loop budget messages acc).
Proof.
  intros H1 H2 H3 H4 H5.
  revert acc; induction budget as [|b IH]; intros acc; simpl.
  - intros w. exact I.
  - apply outcomes_bind; [now apply outcomes_page_step | intros r].
    destruct (CreateFilter.truthy (snd r)); [apply IH | apply outcomes_ret].
Qed.

Lemma delete_try_token (w : World) :
  match DeleteMessages.main_try w with
  | (Done _, w') => token_json w = true /\ token_json w' = false
  | (Raised e, w') =>
      token_json w' = token_json w /\
      (script_error e \/ (e = FileNotFoundError /\ token_json w = false))
  | (Running, w') => False
  end.
Proof.
  assert (Herr : script_error HttpError /\ script_error TypeError /\
                 script_error KeyError /\ script_error EOFError).
  { unfold script_error. tauto. }
  destruct Herr as (E1 & E2 & E3 & E4).
  pose proof (sends_before_executor (fun q => is_deletion q = false)
                no_deletion_get eq_refl w) as H1.
  pose proof (outcomes_before_executor script_error False E1 E2 E3 E4 w) as O1.
  rewrite delete_main_try_split.
  destruct (before_executor w) as [[[ms senders] | e |] w1] eqn:Hbefore;
    simpl in *; destruct H1 as (_ & _ & _ & _ & _ & Ht1).
  - pose proof (sends_get_marked_senders_msg_id
                  (fun q => is_deletion q = false) no_deletion_get
                  ms senders w1) as H2.
    pose proof (outcomes_get_marked_senders_msg_id script_error False
                  E1 E2 E3 ms senders w1) as O2.
    destruct (DeleteMessages.get_marked_senders_msg_id ms senders w1)
      as [[ids | e |] w2] eqn:Hexec; simpl in *;
      destruct H2 as (_ & _ & _ & _ & _ & Ht2).
    + unfold remove_token. destruct (token_json w2) eqn:Ht; simpl.
      * split; [congruence | reflexivity].
      * split; [congruence |]. right. split; [reflexivity | congruence].
    + split; [congruence | now left].
    + exact O2.
  - split; [assumption | now left].
  - exact O1.
Qed.

(** X12: the deletion script removes the token file exactly when its
    [try] block runs to the end; a run stopped by an exception, caught or
    not, leaves the file in place. *)
Theorem X12_token_removed_on_success (w : World) :
  token_json w = true ->
  (token_json (snd (DeleteMessages.main w)) = false <->
   exists w', DeleteMessages.main_try w = (Done tt, w')).
Proof.
  intros Htok. pose proof (delete_try_token w) as H.
  unfold DeleteMessages.main, try_except_http.
  destruct (DeleteMessages.main_try w) as [[[] | e |] w1]; simpl in *.
  - destruct H as [_ H]. split; [intros _; now exists w1 | intros _; exact H].
  - destruct H as [H _]. split.
    + intros Hf. destruct e; simpl in Hf; congruence.
    + intros (w' & Hw'). discriminate Hw'.
  - contradiction.
Qed.

Lemma X12_token_removed_on_success_witness :
  token_json (snd (DeleteMessages.main (start (two_pages None) ["y"; "n"]))) =
    false <->
  exists w',
    DeleteMessages.main_try (start (two_pages None) ["y"; "n"]) = (Done tt, w').
Proof.
  apply (X12_token_removed_on_success (start (two_pages None) ["y"; "n"])).
  reflexivity.
Defined.

(** X13: the deletion script always comes to an end.  It ends normally,
    also after a provider error, which it reports, or with one of three
    exceptions that nothing catches: [TypeError], [KeyError] and
    [EOFError]; [FileNotFoundError] is possible only when the token file
    was missing from the start. *)
Theorem X13_delete_script_ends (w : World) :
  fst (DeleteMessages.main w) = Done tt \/
  fst (DeleteMessages.main w) = Raised TypeError \/
  fst (DeleteMessages.main w) = Raised KeyError \/
  fst (DeleteMessages.main w) = Raised EOFError \/
  (fst (DeleteMessages.main w) = Raised FileNotFoundError /\
   token_json w = false).
Proof.
  pose proof (delete_try_token w) as H.
  unfold DeleteMessages.main, try_except_http.
  destruct (DeleteMessages.main_try w) as [[[] | e |] w1]; simpl in *.
  - now left.
  - destruct H as [_ [He | [-> Ht]]].
    + destruct He as [-> | [-> | [-> | ->]]]; simpl; tauto.
    + simpl. tauto.
  - contradiction.
Qed.

(** X14: the filter script ends normally, also after a provider error,
    or with [TypeError], [KeyError], [IndexError] or [EOFError], or does
    not end; a provider error never leaves it as an exception. *)
Theorem X14_filter_script_ends (budget : nat) (w : World) :
  fst (CreateFilter.main budget w) = Done tt \/
  fst (CreateFilter.main budget w) = Raised TypeError \/
  fst (CreateFilter.main budget w) = Raised KeyError \/
  fst (CreateFilter.main budget w) = Raised IndexError \/
  fst (CreateFilter.main budget w) = Raised EOFError \/
  fst (CreateFilter.main budget w) = Running.
Proof.
  set (E := fun e => e <> FileNotFoundError).
  assert (Htry : outcomes E True (CreateFilter.main_try budget)).
  { unfold CreateFilter.main_try.
    apply outcomes_bind;
      [apply outcomes_messages_list; unfold E; discriminate | intros r].
    apply outcomes_bind;
      [apply outcomes_paging_loop; unfold E; discriminate | intros u].
    apply outcomes_bind;
      [apply outcomes_filters_create; unfold E; discriminate | intros f].
    apply outcomes_print. }
  specialize (Htry w). unfold CreateFilter.main, try_except_http.
  destruct (CreateFilter.main_try budget w) as [[[] | e |] w1]; simpl in *.
  - now left.
  - destruct e; simpl; try tauto. now contradiction Htry.
  - tauto.
Qed.

(** ** The loop of the filter script *)

Lemma paging_loop_never_done (l : list MsgRef) (m : MsgRef) (budget : nat)
  (acc : option string) (w : World) (u : string) :
  last l = Some m ->
  CreateFilter.truthy (m !! "nextPageToken") = true ->
  fst (CreateFilter.paging_loop budget (Some l) acc w) <> Done u.
Proof.
  intros Hlast Htrue Hdone.
  destruct (CreateFilter.paging_loop budget (Some l) acc w) as [r w'] eqn:Hloop.
  simpl in Hdone; subst r.
  destruct (paging_loop_single_pass _ _ _ _ _ _ Hloop) as (tok & Hstep & Hf).
  apply page_step_done in Hstep
    as (_ & _ & _ & _ & _ & _ & _ & _ & _ & l' & m' & Hl & Hm & ->).
  injection Hl as <-. congruence.
Qed.

(** X15: when the last listed message reference carries a
    [nextPageToken] entry that is not empty, the filter script never gets
    past its loop: whatever the budget, the [try] block does not complete
    and no filter is created. *)
Theorem X15_token_on_last_reference (budget : nat) (w w0 : World)
  (response : ListResponse) (l : list MsgRef) (m : MsgRef) :
  messages_list (Some 250) None w = (Done response, w0) ->
  lr_messages response = Some l ->
  last l = Some m ->
  CreateFilter.truthy (m !! "nextPageToken") = true ->
  fst (CreateFilter.main_try budget w) <> Done tt /\
  exists new,
    sent (snd (CreateFilter.main budget w)) = sent w ++ new /\
    Forall (fun q => is_create q = false) new.
Proof.
  intros Hlist Hl Hlast Htrue.
  unfold CreateFilter.main, try_except_http, CreateFilter.main_try, bind.
  rewrite Hlist, Hl.
  destruct (CreateFilter.paging_loop budget (Some l) None w0) as [r w1] eqn:Hloop.
  assert (Hext : extends (fun q => is_create q = false) w w1).
  { eapply create_prefix_extends; [exact Hlist |]. rewrite Hl. exact Hloop. }
  destruct Hext as (new & Hs & Hp & _).
  destruct r as [u | e |].
  - exfalso. eapply (paging_loop_never_done l m budget None w0 u); eauto.
    now rewrite Hloop.
  - split; [discriminate |]. exists new. split; [|assumption].
    destruct e; exact Hs.
  - split; [discriminate |]. exists new. now split.
Qed.

Lemma X15_token_on_last_reference_witness :
  fst (CreateFilter.main_try 7 (start token_in_message ["y"; "y"; "y"])) <>
    Done tt /\
  exists new,
    sent (snd (CreateFilter.main 7 (start token_in_message ["y"; "y"; "y"]))) =
    sent (start token_in_message ["y"; "y"; "y"]) ++ new /\
    Forall (fun q => is_create q = false) new.
Proof.
  eapply (X15_token_on_last_reference 7 (start token_in_message ["y"; "y"; "y"])
            _ (first_page token_in_message)
            [ref "m1"; <[ "nextPageToken" := "p2" ]> (ref "m2")]
            (<[ "nextPageToken" := "p2" ]> (ref "m2"))).
  - vm_compute. reflexivity.
  - reflexivity.
  - reflexivity.
  - vm_compute. reflexivity.
Defined.

(** ** The requests of a completed run *)








(** ** Mailboxes without messages *)

Lemma messages_list_first (n : option nat) (w : World) :
  head (faults (server w)) <> Some true ->
  exists w0,
    messages_list n None w = (Done (first_page (server w)), w0) /\
    sent w0 = sent w ++ [MessagesList n None] /\
    stdin w0 = stdin w /\ stdout w0 = stdout w /\
    token_json w0 = token_json w /\ hash_order w0 = hash_order w /\
    faults (server w0) = tail (faults (server w)) /\
    filters (server w0) = filters (server w).
Proof.
  intros Hfault. unfold messages_list, bind, execute, serve.
  destruct (faults (server w)) as [|[] fl] eqn:Hf; simpl in *;
    try congruence; eexists; repeat split; simpl; congruence.
Qed.

(** X18: when the list response has no [messages] entry, as for a
    mailbox without messages, both scripts stop with a [TypeError] right
    after the list request; nothing else is sent, nobody is asked, and the
    token file stays. *)
Theorem X18_absent_list (budget : nat) (w : World) :
  head (faults (server w)) <> Some true ->
  lr_messages (first_page (server w)) = None ->
  (fst (DeleteMessages.main w) = Raised TypeError /\
   sent (snd (DeleteMessages.main w)) = sent w ++ [MessagesList None None] /\
   stdout (snd (DeleteMessages.main w)) = stdout w /\
   token_json (snd (DeleteMessages.main w)) = token_json w) /\
  (fst (CreateFilter.main (S budget) w) = Raised TypeError /\
   sent (snd (CreateFilter.main (S budget) w)) =
     sent w ++ [MessagesList (Some 250) None] /\
   stdout (snd (CreateFilter.main (S budget) w)) = stdout w).
Proof.
  intros Hfault Hnone. split.
  - destruct (messages_list_first None w Hfault)
      as (w0 & Hlist & Hs & _ & Ho & Ht & _).
    unfold DeleteMessages.main, try_except_http, DeleteMessages.main_try, bind.
    rewrite Hlist, Hnone. simpl. now repeat split.
  - destruct (messages_list_first (Some 250) w Hfault)
      as (w0 & Hlist & Hs & _ & Ho & _).
    unfold CreateFilter.main, try_except_http, CreateFilter.main_try, bind.
    rewrite Hlist, Hnone. simpl. unfold CreateFilter.page_step, bind. simpl.
    now repeat split.
Qed.

Lemma X18_absent_list_witness :
  (fst (DeleteMessages.main (start empty_mailbox ["y"])) = Raised TypeError /\
   sent (snd (DeleteMessages.main (start empty_mailbox ["y"]))) =
     sent (start empty_mailbox ["y"]) ++ [MessagesList None None] /\
   stdout (snd (DeleteMessages.main (start empty_mailbox ["y"]))) =
     stdout (start empty_mailbox ["y"]) /\
   token_json (snd (DeleteMessages.main (start empty_mailbox ["y"]))) =
     token_json (start empty_mailbox ["y"])) /\
  (fst (CreateFilter.main (S 0) (start empty_mailbox ["y"])) =
     Raised TypeError /\
   sent (snd (CreateFilter.main (S 0) (start empty_mailbox ["y"]))) =
     sent (start empty_mailbox ["y"]) ++ [MessagesList (Some 250) None] /\
   stdout (snd (CreateFilter.main (S 0) (start empty_mailbox ["y"]))) =
     stdout (start empty_mailbox ["y"])).
Proof.
  apply (X18_absent_list 0 (start empty_mailbox ["y"])).
  - discriminate.
  - reflexivity.
Defined.

(** X19: when the list response has an empty [messages] list and no
    provider fault is pending, the deletion script completes: it sends
    nothing but the list request, asks nobody and removes the token file;
    the filter script lists the filters and then stops with an
    [IndexError] at the page token, without creating a filter. *)
Theorem X19_empty_list (budget : nat) (w : World) :
  faults (server w) = [] ->
  lr_messages (first_page (server w)) = Some [] ->
  hash_order w ∅ = [] ->
  token_json w = true ->
  (fst (DeleteMessages.main w) = Done tt /\
   sent (snd (DeleteMessages.main w)) = sent w ++ [MessagesList None None] /\
   stdout (snd (DeleteMessages.main w)) = stdout w /\
   token_json (snd (DeleteMessages.main w)) = false) /\
  (fst (CreateFilter.main (S budget) w) = Raised IndexError /\
   sent (snd (CreateFilter.main (S budget) w)) =
     sent w ++ [MessagesList (Some 250) None; FiltersList]).
Proof.
  intros Hf Hl Hh Ht. split.
  - unfold DeleteMessages.main, try_except_http, DeleteMessages.main_try,
      messages_list, bind, execute, serve.
    rewrite Hf. simpl. rewrite Hl. simpl. rewrite Hh. simpl.
    unfold remove_token. simpl. rewrite Ht. simpl. now repeat split.
  - unfold CreateFilter.main, try_except_http, CreateFilter.main_try,
      messages_list, bind, execute, serve.
    rewrite Hf. simpl. rewrite Hl. simpl.
    unfold CreateFilter.page_step, bind. simpl. rewrite Hh. simpl.
    unfold CreateFilter.identify_unfiltered_emails,
      CreateFilter.unfiltered_list, filters_list, bind, execute, serve.
    simpl. rewrite Hf. simpl.
    destruct (filters (server w)) as [fs|]; simpl;
      rewrite <- app_assoc; now split.
Qed.

Lemma X19_empty_list_witness :
  (fst (DeleteMessages.main (start empty_list ["y"])) = Done tt /\
   sent (snd (DeleteMessages.main (start empty_list ["y"]))) =
     sent (start empty_list ["y"]) ++ [MessagesList None None] /\
   stdout (snd (DeleteMessages.main (start empty_list ["y"]))) =
     stdout (start empty_list ["y"]) /\
   token_json (snd (DeleteMessages.main (start empty_list ["y"]))) = false) /\
  (fst (CreateFilter.main (S 3) (start empty_list ["y"])) = Raised IndexError /\
   sent (snd (CreateFilter.main (S 3) (start empty_list ["y"]))) =
     sent (start empty_list ["y"]) ++
     [MessagesList (Some 250) None; FiltersList]).
Proof.
  apply (X19_empty_list 3 (start empty_list ["y"])).
  - reflexivity.
  - reflexivity.
  - vm_compute. reflexivity.
  - reflexivity.
Defined.

(** ** Signing in *)

Ltac auth_cases env token :=
  unfold credentials_block, login;
  destruct token;
  [destruct (from_authorized_user_file env) as [[[] [] []]|] eqn:Hfile | ];
  simpl;
  repeat match goal with
         | |- context [refresh env ?c] => destruct (refresh env c) eqn:?
         end;
  destruct (run_local_server env) eqn:Hflow; simpl.

Ltac in_list :=
  repeat (rewrite elem_of_cons || rewrite elem_of_nil).

(** X20: when the credential block completes, [token.json] exists; the
    block wrote the file exactly when it completed starting from stored
    credentials that were absent or not valid; when it fails, by the
    token file not loading or the refresh or the consent flow failing, the
    file is as the block found it. *)
Theorem X20_token_after_sign_in (env : AuthEnv) (token : bool) :
  (is_Some (creds (credentials_block env token)) ->
   token_after (credentials_block env token) = true) /\
  (creds (credentials_block env token) = None ->
   token_after (credentials_block env token) = token) /\
  (WriteToken ∈ actions (credentials_block env token) <->
   is_Some (creds (credentials_block env token)) /\
   needs_login (if token then from_authorized_user_file env else None) = true).
Proof.
  auth_cases env token; (split; [|split]);
    try (intros _; reflexivity);
    try (intros [? H]; discriminate H);
    try (intros H; discriminate H);
    in_list; split;
    try (intros [H | [H | [H | []]]]; discriminate H);
    try (intros [H | [H | []]]; discriminate H);
    try (intros [H | []]; discriminate H);
    try (intros []; fail);
    try (intros [[? H] _]; discriminate H);
    try (intros [_ H]; discriminate H);
    try (intros _; split; [now eexists | reflexivity]);
    try (intros _; tauto).
Qed.

Lemma X20_token_after_sign_in_witness :
  token_after (credentials_block signed_in false) = true /\
  token_after
    (credentials_block
       {| from_authorized_user_file := None; refresh := fun _ => None;
          run_local_server := None |} false) = false /\
  WriteToken ∈ actions (credentials_block signed_in false).
Proof.
  split; [|split].
  - apply (proj1 (X20_token_after_sign_in signed_in false)). now eexists.
  - apply (proj1 (proj2 (X20_token_after_sign_in
                           {| from_authorized_user_file := None;
                              refresh := fun _ => None;
                              run_local_server := None |} false))).
    reflexivity.
  - apply (proj2 (proj2 (X20_token_after_sign_in signed_in false))).
    split; [now eexists | reflexivity].
Defined.

#[local] Set Warnings "-clear-no-such-hyp".

(** X21: the block refreshes exactly when it loaded stored credentials
    that are not valid, are expired and have a refresh token, and runs
    the consent flow exactly when there is no token file or the loaded
    credentials are not valid and cannot be refreshed.  It never does
    both: a refresh that fails ends the script, without a consent flow and
    without the token file being rewritten. *)
Theorem X21_refresh_or_consent (env : AuthEnv) (token : bool) :
  (Refresh ∈ actions (credentials_block env token) <->
   token = true /\
   exists c, from_authorized_user_file env = Some c /\
             valid c = false /\ expired c = true /\ refresh_token c = true) /\
  (Consent ∈ actions (credentials_block env token) <->
   token = false \/
   exists c, from_authorized_user_file env = Some c /\
             valid c = false /\ (expired c = false \/ refresh_token c = false)) /\
  (Refresh ∈ actions (credentials_block env token) ->
   (Consent ∉ actions (credentials_block env token)) /\
   (creds (credentials_block env token) = None ->
    WriteToken ∉ actions (credentials_block env token))).
Proof.
  auth_cases env token; (split; [|split]); in_list;
    try (rewrite !not_elem_of_cons); try (rewrite !elem_of_cons);
    try (rewrite !elem_of_nil); naive_solver.
Qed.

Lemma X21_refresh_or_consent_witness :
  Refresh ∈ actions
    (credentials_block
       {| from_authorized_user_file :=
            Some {| valid := false; expired := true; refresh_token := true |};
          refresh := fun _ => None;
          run_local_server := None |} true) /\
  Consent ∈ actions (credentials_block signed_in false) /\
  (Consent ∉ actions
     (credentials_block
        {| from_authorized_user_file :=
             Some {| valid := false; expired := true; refresh_token := true |};
           refresh := fun _ => None;
           run_local_server := None |} true)) /\
  (WriteToken ∉ actions
     (credentials_block
        {| from_authorized_user_file :=
             Some {| valid := false; expired := true; refresh_token := true |};
           refresh := fun _ => None;
           run_local_server := None |} true)).
Proof.
  pose proof (X21_refresh_or_consent
                {| from_authorized_user_file :=
                     Some {| valid := false; expired := true;
                             refresh_token := true |};
                   refresh := fun _ => None;
                   run_local_server := None |} true) as (H1 & _ & H3).
  assert (Hr : Refresh ∈ actions
            (credentials_block
               {| from_authorized_user_file :=
                    Some {| valid := false; expired := true;
                            refresh_token := true |};
                  refresh := fun _ => None;
                  run_local_server := None |} true)).
  { apply H1. split; [reflexivity |]. eexists. now repeat split. }
  split; [exact Hr |]. split.
  - apply (proj2 (proj1 (proj2 (X21_refresh_or_consent signed_in false)))).
    now left.
  - destruct (H3 Hr) as [Hc Hw]. split; [exact Hc | now apply Hw].
Defined.

(** ** The scripts as a whole *)

Lemma sign_in_leaves_token (env : AuthEnv) (token : bool) :
  is_Some (creds (credentials_block env token)) ->
  token_after (credentials_block env token) = true.
Proof.
  auth_cases env token; try (intros _; reflexivity);
    intros [? H]; discriminate H.
Qed.

Lemma delete_try_done_token (w w' : World) :
  DeleteMessages.main_try w = (Done tt, w') -> token_json w' = false.
Proof.
  intros H. pose proof (delete_try_token w) as Ht. rewrite H in Ht. tauto.
Qed.

(** X22: when the deletion script has signed in and its [try] block has
    run to the end, the script ends normally with the token file removed,
    whether or not the file existed when the script started; the next
    run, whatever the OAuth library then answers, loads and refreshes
    nothing and goes through the consent flow. *)
Theorem X22_delete_script_forgets_sign_in (env env' : AuthEnv)
  (w w' : World) :
  is_Some (creds (credentials_block env (token_json w))) ->
  DeleteMessages.main_try (with_token true w) = (Done tt, w') ->
  delete_script env w =
    (Ran (Done tt), actions (credentials_block env (token_json w)), w') /\
  token_json w' = false /\
  (actions (credentials_block env' (token_json w')) = [Consent; WriteToken] \/
   actions (credentials_block env' (token_json w')) = [Consent]).
Proof.
  intros Hcreds Htry.
  pose proof (sign_in_leaves_token env (token_json w) Hcreds) as Hafter.
  pose proof (delete_try_done_token _ _ Htry) as Hgone.
  split; [|split; [exact Hgone |]].
  - unfold delete_script. destruct Hcreds as [c Hc]. rewrite Hc, Hafter.
    unfold DeleteMessages.main, try_except_http. now rewrite Htry.
  - rewrite Hgone. unfold credentials_block, login. simpl.
    destruct (run_local_server env'); [now left | now right].
Qed.

Lemma X22_delete_script_forgets_sign_in_witness :
  delete_script signed_in (start (two_pages None) ["y"; "n"]) =
    (Ran (Done tt),
     actions (credentials_block signed_in
                (token_json (start (two_pages None) ["y"; "n"]))),
     snd (DeleteMessages.main_try
            (with_token true (start (two_pages None) ["y"; "n"])))) /\
  token_json (snd (DeleteMessages.main_try
                     (with_token true (start (two_pages None) ["y"; "n"])))) =
    false /\
  (actions (credentials_block signed_in
              (token_json (snd (DeleteMessages.main_try
                                  (with_token true
                                     (start (two_pages None) ["y"; "n"]))))))
   = [Consent; WriteToken] \/
   actions (credentials_block signed_in
              (token_json (snd (DeleteMessages.main_try
                                  (with_token true
                                     (start (two_pages None) ["y"; "n"]))))))
   = [Consent]).
Proof.
  apply (X22_delete_script_forgets_sign_in signed_in signed_in
           (start (two_pages None) ["y"; "n"])).
  - now eexists.
  - vm_compute. reflexivity.
Defined.

(** X23: when the filter script has signed in, [token.json] exists at
    the end of the run however the run ends, so that the next run can
    load it; the script sends no deletion request. *)
Theorem X23_filter_script_keeps_sign_in (env : AuthEnv) (budget : nat)
  (w : World) :
  is_Some (creds (credentials_block env (token_json w))) ->
  token_json (snd (filter_script env budget w)) = true /\
  exists o new,
    fst (fst (filter_script env budget w)) = Ran o /\
    sent (snd (filter_script env budget w)) = sent w ++ new /\
    Forall (fun q => is_deletion q = false) new.
Proof.
  intros Hcreds.
  pose proof (sign_in_leaves_token env (token_json w) Hcreds) as Hafter.
  unfold filter_script. destruct Hcreds as [c Hc]. rewrite Hc, Hafter.
  destruct (sends_create_main (fun q => is_deletion q = false) budget
              (fun q H => H) (with_token true w)) as (new & Hs & Hp & _ & _ & Ht).
  destruct (CreateFilter.main budget (with_token true w)) as [o w'].
  simpl in *. split; [exact Ht |]. now exists o, new.
Qed.

Lemma X23_filter_script_keeps_sign_in_witness :
  token_json (snd (filter_script signed_in 2
                     (with_token false (start (two_pages None) ["y"])))) =
    true /\
  exists o new,
    fst (fst (filter_script signed_in 2
                (with_token false (start (two_pages None) ["y"])))) = Ran o /\
    sent (snd (filter_script signed_in 2
                 (with_token false (start (two_pages None) ["y"])))) =
      sent (with_token false (start (two_pages None) ["y"])) ++ new /\
    Forall (fun q => is_deletion q = false) new.
Proof.
  apply (X23_filter_script_keeps_sign_in signed_in 2
           (with_token false (start (two_pages None) ["y"]))).
  now eexists.
Defined.

(** ** The executor after the sender extractor *)

Lemma fetched_unique (s s' : Server) (l : list MsgRef)
  (mds mds' : list MessageData) :
  store s' = store s ->
  Forall2 (fetched s) l mds -> Forall2 (fetched s') l mds' -> mds = mds'.
Proof.
  intros Hst H; revert mds'; induction H as [|mess md l mds Hmd _ IH];
    intros mds' H'; inversion H'; subst; [reflexivity |].
  f_equal; [|now apply IH].
  destruct Hmd as (id & Hid & Hs).
  match goal with Hf : fetched s' mess _ |- _ =>
    destruct Hf as (id' & Hid' & Hs') end.
  rewrite Hst in Hs'. congruence.
Qed.

Lemma matching_all (senders : list string) (md : MessageData) :
  (forall s, s ∈ from_values md -> s ∈ senders) ->
  matching_ids senders md = (fun _ => md_id md) <$> from_values md.
Proof.
  unfold matching_ids, from_values. intros Hall.
  rewrite <- list_fmap_compose. f_equal.
  induction (md_headers md) as [|h hs IH]; [reflexivity |].
  rewrite !filter_cons.
  destruct (decide (h_name h = "From")) as [Hn | Hn].
  - rewrite decide_True.
    + f_equal. apply IH. intros s Hs. apply Hall.
      rewrite filter_cons, decide_True by assumption.
      rewrite fmap_cons. apply elem_of_cons. now right.
    + split; [assumption |]. apply Hall.
      rewrite filter_cons, decide_True by assumption.
      rewrite fmap_cons. apply elem_of_cons. now left.
  - rewrite decide_False by tauto. apply IH. intros s Hs. apply Hall.
    now rewrite filter_cons, decide_False by assumption.
Qed.

Lemma matching_none (md : MessageData) : matching_ids [] md = [].
Proof.
  unfold matching_ids.
  induction (md_headers md) as [|h hs IH]; [reflexivity |].
  rewrite filter_cons, decide_False; [exact IH |].
  intros [_ Hin]. now apply elem_of_nil in Hin.
Qed.

Lemma bind_matching_none (mds : list MessageData) :
  mds ≫= matching_ids [] = [].
Proof.
  induction mds as [|md mds IH]; [reflexivity |].
  change ((md :: mds) ≫= matching_ids [])
    with (matching_ids [] md ++ (mds ≫= matching_ids [])).
  now rewrite IH, matching_none.
Qed.

Lemma bind_matching_all (senders : list string) (mds : list MessageData) :
  (forall md, md ∈ mds -> forall s, s ∈ from_values md -> s ∈ senders) ->
  mds ≫= matching_ids senders =
  mds ≫= (fun md => (fun _ => md_id md) <$> from_values md).
Proof.
  intros Hin. induction mds as [|md mds IH]; [reflexivity |].
  change ((md :: mds) ≫= matching_ids senders)
    with (matching_ids senders md ++ (mds ≫= matching_ids senders)).
  change ((md :: mds) ≫= (fun md => (fun _ => md_id md) <$> from_values md))
    with (((fun _ => md_id md) <$> from_values md) ++
          (mds ≫= (fun md => (fun _ => md_id md) <$> from_values md))).
  rewrite matching_all.
  - f_equal. apply IH. intros md' Hmd'. apply Hin.
    apply elem_of_cons. now right.
  - apply Hin. apply elem_of_cons. now left.
Qed.

(** X24: the executor after the sender extractor, over the same list and
    an unchanged store.  When the operator has marked nobody the executor
    returns no identifier; when every sender the extractor found is among
    the marked ones it returns the identifier of every fetched message,
    once for each of its [From] headers, so a message without a [From]
    header is never collected. *)
Theorem X24_executor_after_extractor (l : list MsgRef) (u : gset string)
  (senders ids : list string) (w w1 w2 w3 : World) :
  Common.get_unique_senders (Some l) w = (Done u, w1) ->
  store (server w2) = store (server w) ->
  DeleteMessages.get_marked_senders_msg_id (Some l) senders w2 =
    (Done ids, w3) ->
  exists mds,
    Forall2 (fetched (server w)) l mds /\
    (senders = [] -> ids = []) /\
    ((forall s, s ∈ u -> s ∈ senders) ->
     ids = mds ≫= (fun md => (fun _ => md_id md) <$> from_values md)).
Proof.
  simpl. intros Huniq Hst Hexec.
  destruct (senders_loop_done _ _ _ _ _ Huniq)
    as (mds & _ & Hall & _ & _ & _ & _ & _ & _ & Hu).
  destruct (ids_loop_done _ _ _ _ _ _ Hexec) as (mds' & Hall' & Hids).
  simpl in Hids.
  rewrite <- (fetched_unique _ _ _ _ _ Hst Hall Hall') in Hids.
  exists mds. split; [assumption |]. split.
  - intros ->. rewrite Hids. apply bind_matching_none.
  - intros Hmarked. rewrite Hids.
    assert (Hin : forall md, md ∈ mds ->
              forall s, s ∈ from_values md -> s ∈ senders).
    { intros md Hmd s Hs. apply Hmarked, Hu. right.
      unfold from_values in Hs. apply list_elem_of_fmap in Hs as (h & -> & Hh).
      apply list_elem_of_filter in Hh as [Hn Hh]. now exists md, h. }
    now apply bind_matching_all.
Qed.

Lemma X24_executor_after_extractor_witness :
  exists mds,
    Forall2 (fetched (server (start (two_pages None) [])))
      [ref "m1"; ref "m2"] mds /\
    (["Bob <b@y.com>"; "Alice <a@x.com>"] = [] -> ["m1"; "m2"] = []) /\
    ((forall s, s ∈ ({[ "Alice <a@x.com>"; "Bob <b@y.com>" ]} : gset string) ->
                s ∈ ["Bob <b@y.com>"; "Alice <a@x.com>"]) ->
     ["m1"; "m2"] =
     mds ≫= (fun md => (fun _ => md_id md) <$> from_values md)).
Proof.
  eapply (X24_executor_after_extractor [ref "m1"; ref "m2"]
            {[ "Alice <a@x.com>"; "Bob <b@y.com>" ]}
            ["Bob <b@y.com>"; "Alice <a@x.com>"] ["m1"; "m2"]
            (start (two_pages None) []) _ (start (two_pages None) [])).
  - vm_compute. reflexivity.
  - reflexivity.
  - vm_compute. reflexivity.
Defined.

(** ** One listing per run *)

Lemma delete_main_lists_once (w : World) :
  exists rest,
    sent (snd (DeleteMessages.main w)) =
    sent w ++ MessagesList None None :: rest /\
    Forall (fun q => exists id, q = MessagesGet id) rest.
Proof.
  set (is_get := fun q => exists id, q = MessagesGet id).
  assert (Hlist : exists w0 r,
            messages_list None None w = (r, w0) /\
            sent w0 = sent w ++ [MessagesList None None]).
  { unfold messages_list, bind, execute.
    destruct (serve (server w) (MessagesList None None)) as [s [[] |]];
      eexists _, _; split; reflexivity. }
  destruct Hlist as (w0 & r & Hlist & Hs0).
  assert (Hget : forall id, is_get (MessagesGet id)) by (intros id; now exists id).
  unfold DeleteMessages.main, try_except_http, DeleteMessages.main_try, bind.
  rewrite Hlist. destruct r as [response | e |].
  - pose proof (sends_get_unique_senders is_get Hget (lr_messages response) w0)
      as H1.
    destruct (Common.get_unique_senders (lr_messages response) w0)
      as [[u | e |] w1]; simpl in H1; destruct H1 as (n1 & Hs1 & Hp1 & _).
    + unfold iterate, Common.mark_senders.
      pose proof (sends_mark_loop is_get (hash_order w1 u) [] w1) as H2.
      destruct (Common.mark_loop (hash_order w1 u) [] w1) as [[senders | e |] w2];
        simpl in H2; destruct H2 as (n2 & Hs2 & Hp2 & _).
      * pose proof (sends_get_marked_senders_msg_id is_get Hget
                      (lr_messages response) senders w2) as H3.
        destruct (DeleteMessages.get_marked_senders_msg_id
                    (lr_messages response) senders w2) as [[ids | e |] w3];
          simpl in H3; destruct H3 as (n3 & Hs3 & Hp3 & _);
          exists (n1 ++ n2 ++ n3);
          (split; [|repeat (apply Forall_app; split); assumption]).
        -- unfold remove_token. rewrite Hs0 in Hs1.
           destruct (token_json w3); simpl;
             rewrite Hs3, Hs2, Hs1, <- !app_assoc; reflexivity.
        -- rewrite Hs0 in Hs1.
           destruct e; simpl; rewrite Hs3, Hs2, Hs1, <- !app_assoc; reflexivity.
        -- rewrite Hs0 in Hs1. simpl.
           rewrite Hs3, Hs2, Hs1, <- !app_assoc; reflexivity.
      * exists (n1 ++ n2). split; [|apply Forall_app; now split].
        rewrite Hs0 in Hs1.
        destruct e; simpl; rewrite Hs2, Hs1, <- !app_assoc; reflexivity.
      * exists (n1 ++ n2). split; [|apply Forall_app; now split].
        rewrite Hs0 in Hs1. simpl. rewrite Hs2, Hs1, <- !app_assoc; reflexivity.
    + exists n1. split; [|assumption]. rewrite Hs0 in Hs1.
      destruct e; simpl; rewrite Hs1, <- !app_assoc; reflexivity.
    + exists n1. split; [|assumption]. rewrite Hs0 in Hs1. simpl.
      rewrite Hs1, <- !app_assoc; reflexivity.
  - exists []. split; [destruct e; exact Hs0 | constructor].
  - exists []. split; [exact Hs0 | constructor].
Qed.

(** X25: in every run, however it ends, each script asks for the
    listing once, as its first request and without a page token: the
    deletion script with no page size, everything it sends afterwards
    being a fetch of a message; the filter script with a page size of
    250. *)
Theorem X25_one_listing (budget : nat) (w : World) :
  (exists rest,
     sent (snd (DeleteMessages.main w)) =
     sent w ++ MessagesList None None :: rest /\
     Forall (fun q => exists id, q = MessagesGet id) rest) /\
  (exists rest,
     sent (snd (CreateFilter.main budget w)) =
     sent w ++ MessagesList (Some 250) None :: rest /\
     Forall (fun q => is_list q = false) rest).
Proof.
  split; [apply delete_main_lists_once | apply create_main_lists_once].
Qed.
